(** * ilp-compat-plugin: the LPI1 -> LPI2 adapter of [src/index.js]

    A shallow embedding of the [Plugin] class that wraps an old-interface
    (event driven) ledger plugin and exposes the promise based interface,
    together with the properties of its delivery-address computation, its
    correlation table, its completion handlers and its incoming-transfer
    pipeline.

    Conventions of the embedding:
    - JavaScript strings are [string]; [Buffer]s are [list byte].
    - [this.transfers], a plain object used as a dictionary keyed by
      transfer identifier, is a [gmap string PendingTransfer] holding its
      own properties.  A lookup of a key that is not an own property but
      names a property inherited from [Object.prototype] finds that
      inherited value, which is truthy and has no [resolve] or [reject]:
      [inherits_property] tells these keys.
    - Promises live in an explicit store; the [resolve] / [reject] closures
      kept in the table are references into that store.
    - The wrapped plugin is a record of what the adapter reads from it
      ([getInfo]) and a log of the calls the adapter submits to it.  The
      reads of [getInfo()] that [sendTransfer] makes for the prefix and the
      connectors are the pure function [getInfo]; they are not entered in
      the log.
    - The [ilp-packet] codec and the base64 conversions of [Buffer] are
      external: they are the operations of two classes, and their contract
      is a hypothesis where a property needs it.
    - What an operation schedules for a later turn of the event loop (the
      [catch] callbacks, the code after [await]) is composed with the
      operation that schedules it; it touches nothing but the promise or the
      call log it is given.
    - [debug] output is diagnostic only and is not part of the state; the
      evaluation of its argument is modelled where it can throw
      ([catch_report]). *)

From Stdlib Require Import Strings.String Strings.Ascii Strings.Byte.
From Stdlib Require Import Lists.List Arith.PeanoNat Bool.Bool Lia.
From stdpp Require Import base option list strings gmap.

Local Open Scope string_scope.
Local Open Scope list_scope.

(** ** JavaScript string primitives used by [sendTransfer] *)

Module JsString.

(** [s.substring(start, end)]: both indices are clamped to the length and
    swapped when [start > end]. *)
Definition substring2 (s : string) (start stop : nat) : string :=
  let len := String.length s in
  let a := Nat.min start len in
  let b := Nat.min stop len in
  let lo := Nat.min a b in
  let hi := Nat.max a b in
  String.substring lo (hi - lo) s.

(** [s.substring(start)]: from [start] (clamped) to the end. *)
Definition substring1 (s : string) (start : nat) : string :=
  substring2 s start (String.length s).

(** [s.split(sep)] for a separator of one code unit.  The result always
    has at least one element; [''.split('.')] is [['']]. *)
Fixpoint split (sep : ascii) (s : string) : list string :=
  match s with
  | EmptyString => [EmptyString]
  | String c rest =>
      if Ascii.eqb c sep then EmptyString :: split sep rest
      else match split sep rest with
           | seg :: segs => String c seg :: segs
           | [] => [String c EmptyString]
           end
  end.

(** [a === b] on strings. *)
Definition strict_eq (a b : string) : bool := String.eqb a b.

(** [a + b] where [b] is the result of an array access: an [undefined]
    operand is converted to the text "undefined". *)
Definition concat_value (a : string) (b : option string) : string :=
  match b with
  | Some t => a +:+ t
  | None => a +:+ "undefined"
  end.

(** Occurrence of a code unit in a string. *)
Fixpoint contains (c : ascii) (s : string) : bool :=
  match s with
  | EmptyString => false
  | String d rest => Ascii.eqb d c || contains c rest
  end.

End JsString.

(** [startsWith(prefix, subject)], the helper at the end of the file. *)
Definition startsWith (prefix subject : string) : bool :=
  JsString.strict_eq (JsString.substring2 subject 0 (String.length prefix)) prefix.

(** What [getInfo()] of the wrapped plugin returns. *)
Record PluginInfo := mkPluginInfo {
  prefix : string;
  connectors : list string
}.

(** The value of the local variable [to] after the [if]/[else] of
    [sendTransfer]; [None] is JavaScript's [undefined]. *)
Definition localDeliveryAddress (info : PluginInfo) (destination : string)
  : option string :=
  if startsWith (prefix info) destination then
    Some (JsString.concat_value (prefix info)
            (JsString.split "."%char
               (JsString.substring1 destination (String.length (prefix info))) !! 0%nat))
  else
    connectors info !! 0%nat.

(** [!to]: [undefined] and the empty string are falsy. *)
Definition falsy (v : option string) : bool :=
  match v with
  | None => true
  | Some s => JsString.strict_eq s ""
  end.

(** ** Values exchanged with the collaborators *)

Abbreviation bytes := (list byte).

(** Values that are thrown, or passed as rejection reasons: the error
    objects the adapter and the platform create, which carry a [stack];
    [Opaque], a value supplied by a collaborator that converts to text (a
    string, a number, [undefined], an object with [toString]); [null]; a
    Symbol; and [Unprintable], an object whose [stack] is read or whose
    conversion to text fails (one without [toString], for instance). *)
Inductive JsError :=
  | TypeError (message : string)
  | Error (message : string)
  | TransferHandlerAlreadyRegisteredError (message : string)
  | InvalidFieldsError (message : string)
  | InterledgerRejectionError (code message : string)
  | Opaque (value : string)
  | NullValue
  | SymbolValue (description : string)
  | Unprintable (description : string).

(** Outcome of evaluating a synchronous piece of code. *)
Inductive Completion (A : Type) :=
  | Normal (a : A)
  | Throw (e : JsError).
Arguments Normal {A} a.
Arguments Throw {A} e.

(** The value found in an [ilp] field or event argument. *)
Inductive JsIlp :=
  | IlpBuffer (b : bytes)
  | IlpString (s : string)
  | IlpUndefined.

(** OldTransferRecord, the old-interface transfer. *)
Record OldTransferRecord := mkOldTransferRecord {
  lpi1_id : string;
  lpi1_amount : string;
  lpi1_to : string;
  lpi1_ledger : string;
  lpi1_ilp : JsIlp;
  lpi1_executionCondition : string;
  lpi1_expiresAt : string;
  lpi1_custom : string
}.

(** What calling a method found on a request object may do: the call
    [transfer.sendTransfer(lpi1Transfer).catch(reject)] distinguishes a
    throwing method, a result without [catch], and a promise that later
    fulfills or rejects. *)
Inductive MethodOutcome :=
  | MethodThrows (e : JsError)
  | MethodReturnsNonPromise
  | MethodPromiseFulfills
  | MethodPromiseRejects (e : JsError).

(** The new-interface transfer: the argument of [sendTransfer] and the view
    handed to the transfer handler.  [sendTransfer_property] is the value of
    the object's own [sendTransfer] property, [None] when it has none, as is
    the case for a request of the documented shape. *)
Record Transfer := mkTransfer {
  amount : string;
  destination : string;
  data : bytes;
  condition : string;
  expiry : string;
  custom : string;
  sendTransfer_property : option (OldTransferRecord -> MethodOutcome)
}.

(** The value a transfer resolves with: [{ fulfillment, data }]. *)
Record FulfillmentResult := mkFulfillmentResult {
  fulfillment : string;
  fulfillment_data : bytes
}.

(** ** The external codec and the Buffer primitives *)

Record IlpPayment := mkIlpPayment {
  payment_account : string;
  payment_amount : string;
  payment_data : string
}.

Record IlpFulfillment := mkIlpFulfillment {
  ilp_fulfillment_data : string
}.

(** [buf.toString('base64')] and [Buffer.from(str, 'base64')]. *)
Class Base64 := {
  toString_base64 : bytes -> string;
  from_base64 : string -> bytes
}.

(** The four functions of the [ilp-packet] module that the adapter calls.
    A deserializer receives whatever value the adapter passes to it and may
    throw. *)
Class IlpPacket := {
  serializeIlpPayment : IlpPayment -> bytes;
  deserializeIlpPayment : JsIlp -> Completion IlpPayment;
  serializeIlpFulfillment : IlpFulfillment -> bytes;
  deserializeIlpFulfillment : JsIlp -> Completion IlpFulfillment
}.

(** The contract of the codec: decoding an encoded envelope gives back the
    account, and a payload that denotes the same bytes. *)
Class CodecLaws (B : Base64) (C : IlpPacket) : Prop := {
  base64_roundtrip : forall b : bytes, from_base64 (toString_base64 b) = b;
  payment_roundtrip : forall p : IlpPayment,
    exists q, deserializeIlpPayment (IlpBuffer (serializeIlpPayment p)) = Normal q
              /\ payment_account q = payment_account p
              /\ from_base64 (payment_data q) = from_base64 (payment_data p);
  fulfillment_roundtrip : forall f : IlpFulfillment,
    exists g, deserializeIlpFulfillment (IlpBuffer (serializeIlpFulfillment f)) = Normal g
              /\ from_base64 (ilp_fulfillment_data g) = from_base64 (ilp_fulfillment_data f)
}.

(** [Buffer.from(value, 'base64')]: a string is decoded, a Buffer is copied
    (the encoding is ignored), anything else is a [TypeError]. *)
Definition Buffer_from `{Base64} (value : JsIlp) : Completion bytes :=
  match value with
  | IlpBuffer b => Normal b
  | IlpString s => Normal (from_base64 s)
  | IlpUndefined =>
      Throw (TypeError "The first argument must be of type string or an instance of Buffer")
  end.

(** ** Promises *)

Inductive PromiseState :=
  | Pending
  | Fulfilled (value : FulfillmentResult)
  | Rejected (reason : JsError).

(** An entry of the correlation table, [{ resolve, reject }].  Each
    continuation is identified by the promise it settles. *)
Record PendingTransfer := mkPendingTransfer {
  resolve : nat;
  reject : nat
}.

(** ** The wrapped plugin *)

Inductive OldPluginCall :=
  | Call_sendTransfer (lpi1Transfer : OldTransferRecord)
  | Call_fulfillCondition (id fulfillment : string) (ilp : bytes)
  | Call_rejectIncomingTransfer (lpi1Transfer : OldTransferRecord)
      (reason : list (string * string))
  | Call_passthrough (method : string).

Record OldPlugin := mkOldPlugin {
  (** the result of [getInfo()] *)
  info : PluginInfo;
  (** whether [fulfillCondition] throws synchronously on given arguments *)
  fulfillCondition_throws : string -> string -> bytes -> option JsError;
  (** the calls received so far, oldest first *)
  calls : list OldPluginCall
}.

(** ** The transfer handler *)

(** What a call of the handler leads to: it throws; its promise rejects; its
    promise fulfills with [{ fulfillment, data }]; its promise fulfills with
    a value whose use throws [e] (it cannot be destructured, or
    [data.toString('base64')] throws); or its promise never settles. *)
Inductive HandlerOutcome :=
  | HandlerThrows (e : JsError)
  | HandlerRejects (e : JsError)
  | HandlerResolves (r : FulfillmentResult)
  | HandlerResolvesMalformed (e : JsError)
  | HandlerNeverSettles.

Definition TransferHandler := Transfer -> HandlerOutcome.

(** The content of [this._transferHandler]: never assigned by the
    constructor, so initially [undefined]; [null] after deregistration. *)
Inductive HandlerSlot :=
  | SlotUndefined
  | SlotNull
  | SlotFunction (handler : TransferHandler).

(** An argument of [registerTransferHandler]. *)
Inductive HandlerArgument :=
  | ArgFunction (handler : TransferHandler)
  | ArgNotFunction (typeof : string).

(** ** The adapter *)

(** Calls of continuations and of a request's own method, kept as a ghost
    trace (oldest first). *)
Inductive TraceEvent :=
  | CalledResolve (promise : nat) (value : FulfillmentResult)
  | CalledReject (promise : nat) (reason : JsError)
  | CalledRequestMethod (lpi1Transfer : OldTransferRecord).

Record Plugin := mkPlugin {
  oldPlugin : OldPlugin;
  transfers : gmap string PendingTransfer;
  _transferHandler : HandlerSlot;
  (** the promises created by [sendTransfer], by creation index *)
  promises : list PromiseState;
  trace : list TraceEvent
}.

(** [new Plugin(oldPlugin)]. *)
Definition newPlugin (old : OldPlugin) : Plugin :=
  {| oldPlugin := old;
     transfers := ∅;
     _transferHandler := SlotUndefined;
     promises := [];
     trace := [] |}.

(** *** State updates *)

Definition with_transfers (t : gmap string PendingTransfer) (st : Plugin) : Plugin :=
  {| oldPlugin := oldPlugin st; transfers := t;
     _transferHandler := _transferHandler st;
     promises := promises st; trace := trace st |}.

Definition with_transferHandler (h : HandlerSlot) (st : Plugin) : Plugin :=
  {| oldPlugin := oldPlugin st; transfers := transfers st;
     _transferHandler := h;
     promises := promises st; trace := trace st |}.

Definition with_promises (ps : list PromiseState) (st : Plugin) : Plugin :=
  {| oldPlugin := oldPlugin st; transfers := transfers st;
     _transferHandler := _transferHandler st;
     promises := ps; trace := trace st |}.

Definition record_event (ev : TraceEvent) (st : Plugin) : Plugin :=
  {| oldPlugin := oldPlugin st; transfers := transfers st;
     _transferHandler := _transferHandler st;
     promises := promises st; trace := trace st ++ [ev] |}.

(** A call on the wrapped plugin is appended to its log. *)
Definition call_oldPlugin (c : OldPluginCall) (st : Plugin) : Plugin :=
  {| oldPlugin := {| info := info (oldPlugin st);
                     fulfillCondition_throws := fulfillCondition_throws (oldPlugin st);
                     calls := calls (oldPlugin st) ++ [c] |};
     transfers := transfers st;
     _transferHandler := _transferHandler st;
     promises := promises st; trace := trace st |}.

(** Settling a promise: only a pending promise changes state. *)
Definition settle (p : nat) (outcome : PromiseState) (st : Plugin) : Plugin :=
  match promises st !! p with
  | Some Pending => with_promises (<[p := outcome]> (promises st)) st
  | _ => st
  end.

(** Calling a [resolve] continuation. *)
Definition call_resolve (p : nat) (value : FulfillmentResult) (st : Plugin) : Plugin :=
  settle p (Fulfilled value) (record_event (CalledResolve p value) st).

(** Calling a [reject] continuation. *)
Definition call_reject (p : nat) (reason : JsError) (st : Plugin) : Plugin :=
  settle p (Rejected reason) (record_event (CalledReject p reason) st).

(** [getInfo()] delegates to the wrapped plugin. *)
Definition getInfo (st : Plugin) : PluginInfo := info (oldPlugin st).

(** *** sendTransfer *)

(** What the [async] method [sendTransfer] hands back: a promise that is
    already rejected because the body threw, or the promise created by
    [new Promise]. *)
Inductive SendResult :=
  | SendThrows (e : JsError)
  | SendPromise (p : nat).

Section Adapter.
Context `{B : Base64} `{C : IlpPacket}.

(** The [ilp] envelope built by [sendTransfer]. *)
Definition outgoingEnvelope (transfer : Transfer) : bytes :=
  serializeIlpPayment
    {| payment_account := destination transfer;
       payment_amount := "0";
       payment_data := toString_base64 (data transfer) |}.

(** The object literal [lpi1Transfer]. *)
Definition build_lpi1Transfer (id to_ prefix_ : string) (transfer : Transfer)
  : OldTransferRecord :=
  {| lpi1_id := id;
     lpi1_amount := amount transfer;
     lpi1_to := to_;
     lpi1_ledger := prefix_;
     lpi1_ilp := IlpBuffer (outgoingEnvelope transfer);
     lpi1_executionCondition := condition transfer;
     lpi1_expiresAt := expiry transfer;
     lpi1_custom := custom transfer |}.

(** The statement [transfer.sendTransfer(lpi1Transfer).catch(reject)]
    evaluated inside the executor of the new promise [p].  An exception
    raised here is caught by the [Promise] constructor, which rejects
    [p]. *)
Definition executor_send (p : nat) (transfer : Transfer)
    (lpi1Transfer : OldTransferRecord) (st : Plugin) : Plugin :=
  match sendTransfer_property transfer with
  | None =>
      settle p (Rejected (TypeError "transfer.sendTransfer is not a function")) st
  | Some method =>
      let st := record_event (CalledRequestMethod lpi1Transfer) st in
      match method lpi1Transfer with
      | MethodThrows e => settle p (Rejected e) st
      | MethodReturnsNonPromise =>
          settle p (Rejected (TypeError "transfer.sendTransfer(...).catch is not a function")) st
      | MethodPromiseFulfills => st
      | MethodPromiseRejects e => call_reject p e st
      end
  end.

(** [sendTransfer(transfer)], with [id] the value returned by [uuid()]. *)
Definition sendTransfer (id : string) (transfer : Transfer) (st : Plugin)
  : SendResult * Plugin :=
  let prefix_ := prefix (getInfo st) in
  let to_ := localDeliveryAddress (getInfo st) (destination transfer) in
  if falsy to_ then
    (SendThrows (Error "No valid destination: no connector and destination is not local"), st)
  else
    (* here [to_] holds a non-empty string *)
    let lpi1Transfer := build_lpi1Transfer id (default "" to_) prefix_ transfer in
    let p := length (promises st) in
    let st := with_promises (promises st ++ [Pending]) st in
    let st := with_transfers (<[id := {| resolve := p; reject := p |}]> (transfers st)) st in
    (SendPromise p, executor_send p transfer lpi1Transfer st).

(** *** Handler registration *)

Definition registered (st : Plugin) : bool :=
  match _transferHandler st with
  | SlotFunction _ => true
  | SlotUndefined | SlotNull => false
  end.

Definition registerTransferHandler (handler : HandlerArgument) (st : Plugin)
  : Completion unit * Plugin :=
  if registered st then
    (Throw (TransferHandlerAlreadyRegisteredError "requestHandler is already registered"), st)
  else
    match handler with
    | ArgNotFunction _ =>
        (Throw (InvalidFieldsError "requestHandler must be a function"), st)
    | ArgFunction f => (Normal tt, with_transferHandler (SlotFunction f) st)
    end.

Definition deregisterTransferHandler (st : Plugin) : Completion unit * Plugin :=
  (Normal tt, with_transferHandler SlotNull st).

(** *** Outgoing completion handlers *)

(** The properties that [this.transfers], a plain object, inherits from
    [Object.prototype].  Each holds a function, or, for [__proto__], the
    prototype object: a truthy value without [resolve] or [reject]. *)
Definition OBJECT_PROTOTYPE_KEYS : list string :=
  ["constructor"; "__proto__"; "hasOwnProperty"; "isPrototypeOf";
   "propertyIsEnumerable"; "toLocaleString"; "toString"; "valueOf";
   "__defineGetter__"; "__defineSetter__"; "__lookupGetter__"; "__lookupSetter__"].

Definition inherits_property (key : string) : bool :=
  bool_decide (key ∈ OBJECT_PROTOTYPE_KEYS).

(** In the three handlers [this.transfers[transfer.id]] is the entry stored
    under the identifier; without one, it is the inherited property of that
    name, if there is one, and [undefined] otherwise.  An inherited property
    passes the guard, and the continuation destructured from it is
    [undefined]: calling it is a [TypeError]. *)
Definition _handleOutgoingFulfill (transfer : OldTransferRecord)
    (fulfillment_ : string) (ilp : JsIlp) (st : Plugin) : Completion unit * Plugin :=
  match transfers st !! lpi1_id transfer with
  | None =>
      if inherits_property (lpi1_id transfer) then
        match deserializeIlpFulfillment ilp with
        | Throw e => (Throw e, st)
        | Normal _ => (Throw (TypeError "resolve is not a function"), st)
        end
      else (Normal tt, st)
  | Some entry =>
      match deserializeIlpFulfillment ilp with
      | Throw e => (Throw e, st)
      | Normal packet =>
          (Normal tt,
           call_resolve (resolve entry)
             {| fulfillment := fulfillment_;
                fulfillment_data := from_base64 (ilp_fulfillment_data packet) |} st)
      end
  end.

Definition _handleOutgoingReject (transfer : OldTransferRecord)
    (reason : JsError) (st : Plugin) : Completion unit * Plugin :=
  match transfers st !! lpi1_id transfer with
  | None =>
      if inherits_property (lpi1_id transfer) then
        (Throw (TypeError "reject is not a function"), st)
      else (Normal tt, st)
  | Some entry => (Normal tt, call_reject (reject entry) reason st)
  end.

Definition _handleOutgoingCancel (transfer : OldTransferRecord)
    (reason : JsError) (st : Plugin) : Completion unit * Plugin :=
  match transfers st !! lpi1_id transfer with
  | None =>
      if inherits_property (lpi1_id transfer) then
        (Throw (TypeError "reject is not a function"), st)
      else (Normal tt, st)
  | Some entry => (Normal tt, call_reject (reject entry) reason st)
  end.

(** *** Incoming transfers *)

(** How the promise of the [async] arrow function of
    [_handleIncomingPrepare] ends: fulfilled, rejected with a value, or never
    settled. *)
Inductive PipelineOutcome :=
  | PipelineFulfilled
  | PipelineRejected (err : JsError)
  | PipelineSuspended.

(** The body of the [async] arrow function of [_handleIncomingPrepare]: the
    handler slot is read and the handler called when the event is
    dispatched; the calls that follow the [await] are made once the
    handler's promise has fulfilled. *)
Definition process_incoming (lpi1Transfer : OldTransferRecord)
    (transfer : Transfer) (st : Plugin) : PipelineOutcome * Plugin :=
  match _transferHandler st with
  | SlotUndefined | SlotNull =>
      (PipelineRejected
         (InterledgerRejectionError "F00" "No transfer handler registered"), st)
  | SlotFunction handler =>
      match handler transfer with
      | HandlerThrows e => (PipelineRejected e, st)
      | HandlerRejects e => (PipelineRejected e, st)
      | HandlerNeverSettles => (PipelineSuspended, st)
      | HandlerResolvesMalformed e => (PipelineRejected e, st)
      | HandlerResolves r =>
          let ilp := serializeIlpFulfillment
                       {| ilp_fulfillment_data := toString_base64 (fulfillment_data r) |} in
          let st' := call_oldPlugin
                       (Call_fulfillCondition (lpi1_id lpi1Transfer) (fulfillment r) ilp) st in
          match fulfillCondition_throws (oldPlugin st)
                  (lpi1_id lpi1Transfer) (fulfillment r) ilp with
          | Some e => (PipelineRejected e, st')
          | None => (PipelineFulfilled, st')
          end
      end
  end.

(** The first two statements of the [catch] callback: [errInfo] is
    [err.stack] for an object with a truthy [stack], and [err] otherwise;
    the template literal passed to [debug] converts it to text.  Reading
    [stack] of [null] throws, and so does the conversion of a Symbol or of an
    object that has none. *)
Definition catch_report (err : JsError) : Completion unit :=
  match err with
  | NullValue => Throw (TypeError "Cannot read property 'stack' of null")
  | SymbolValue _ => Throw (TypeError "Cannot convert a Symbol value to a string")
  | Unprintable _ => Throw (TypeError "Cannot convert object to primitive value")
  | _ => Normal tt
  end.

(** The transfer view built from an incoming old-interface transfer. *)
Definition incoming_view (lpi1Transfer : OldTransferRecord) : Completion Transfer :=
  match Buffer_from (lpi1_ilp lpi1Transfer) with
  | Throw e => Throw e
  | Normal buffer =>
      match deserializeIlpPayment (IlpBuffer buffer) with
      | Throw e => Throw e
      | Normal packet =>
          Normal {| amount := lpi1_amount lpi1Transfer;
                    destination := payment_account packet;
                    data := from_base64 (payment_data packet);
                    condition := lpi1_executionCondition lpi1Transfer;
                    expiry := lpi1_expiresAt lpi1Transfer;
                    custom := lpi1_custom lpi1Transfer;
                    sendTransfer_property := None |}
      end
  end.

(** [_handleIncomingPrepare(lpi1Transfer)].  The completion is that of the
    event handler itself; the state holds the effect of the pipeline it
    starts, including the [catch] callback: when the report of the error
    succeeds it submits the rejection with the empty object literal as
    reason, and when the report throws, the callback ends there and nothing
    is submitted. *)
Definition _handleIncomingPrepare (lpi1Transfer : OldTransferRecord) (st : Plugin)
  : Completion unit * Plugin :=
  match incoming_view lpi1Transfer with
  | Throw e => (Throw e, st)
  | Normal transfer =>
      match process_incoming lpi1Transfer transfer st with
      | (PipelineRejected err, st') =>
          match catch_report err with
          | Normal _ =>
              (Normal tt,
               call_oldPlugin (Call_rejectIncomingTransfer lpi1Transfer []) st')
          | Throw _ => (Normal tt, st')
          end
      | (PipelineFulfilled, st') => (Normal tt, st')
      | (PipelineSuspended, st') => (Normal tt, st')
      end
  end.

(** *** Pass-through surface *)

(** [connect], [disconnect], [isConnected], [getInfo], [sendRequest],
    [registerRequestHandler] and [deregisterRequestHandler] only call the
    method of the same name on the wrapped plugin. *)
Definition passthrough (method : string) (st : Plugin) : Plugin :=
  call_oldPlugin (Call_passthrough method) st.

(** *** The adapter as a transition system *)

Inductive Operation :=
  | Op_sendTransfer (id : string) (transfer : Transfer)
  | Op_registerTransferHandler (handler : HandlerArgument)
  | Op_deregisterTransferHandler
  | Op_passthrough (method : string)
  | Ev_outgoing_fulfill (transfer : OldTransferRecord) (fulfillment_ : string) (ilp : JsIlp)
  | Ev_outgoing_reject (transfer : OldTransferRecord) (reason : JsError)
  | Ev_outgoing_cancel (transfer : OldTransferRecord) (reason : JsError)
  | Ev_incoming_prepare (lpi1Transfer : OldTransferRecord).

Definition step (op : Operation) (st : Plugin) : Plugin :=
  match op with
  | Op_sendTransfer id transfer => snd (sendTransfer id transfer st)
  | Op_registerTransferHandler handler => snd (registerTransferHandler handler st)
  | Op_deregisterTransferHandler => snd (deregisterTransferHandler st)
  | Op_passthrough method => passthrough method st
  | Ev_outgoing_fulfill transfer f ilp => snd (_handleOutgoingFulfill transfer f ilp st)
  | Ev_outgoing_reject transfer reason => snd (_handleOutgoingReject transfer reason st)
  | Ev_outgoing_cancel transfer reason => snd (_handleOutgoingCancel transfer reason st)
  | Ev_incoming_prepare lpi1Transfer => snd (_handleIncomingPrepare lpi1Transfer st)
  end.

Fixpoint run (ops : list Operation) (st : Plugin) : Plugin :=
  match ops with
  | [] => st
  | op :: rest => run rest (step op st)
  end.

End Adapter.

(** ** Vocabulary of the properties *)

(** The processing of an incoming transfer fails: no handler is registered,
    or the handler throws, or the promise it returns rejects, with a value
    that the [catch] callback can report. *)
Definition processing_fails (st : Plugin) (transfer : Transfer) : Prop :=
  match _transferHandler st with
  | SlotFunction handler =>
      exists e,
        (handler transfer = HandlerThrows e \/ handler transfer = HandlerRejects e)
        /\ catch_report e = Normal tt
  | SlotUndefined | SlotNull => True
  end.

(** A terminal event for the transfer [id]: a fulfillment whose envelope
    deserializes, a rejection, or a cancellation. *)
Definition is_terminal_event `{IlpPacket} (id : string) (op : Operation) : Prop :=
  match op with
  | Ev_outgoing_fulfill transfer _ ilp =>
      lpi1_id transfer = id /\ exists packet, deserializeIlpFulfillment ilp = Normal packet
  | Ev_outgoing_reject transfer _ => lpi1_id transfer = id
  | Ev_outgoing_cancel transfer _ => lpi1_id transfer = id
  | _ => False
  end.

(** The operation is a call of [sendTransfer]. *)
Definition is_sendTransfer (op : Operation) : bool :=
  match op with
  | Op_sendTransfer _ _ => true
  | _ => false
  end.


(** Both continuations of every entry belong to one promise. *)
Definition entries_paired (st : Plugin) : Prop :=
  forall id entry, transfers st !! id = Some entry -> resolve entry = reject entry.

(** ** A small codec that satisfies the contract

    Used to run the adapter on concrete inputs.  Payload text is the
    hexadecimal form of the bytes; an envelope is a type octet followed by
    length-prefixed fields, the length written in unary. *)

Module TestCodec.

(** The digit of a value below sixteen: ['0'..'9'] are the codes from 48,
    ['a'..'f'] the codes from 97. *)
Definition hex_digit (n : N) : ascii :=
  if (n <? 10)%N then ascii_of_N (48 + n) else ascii_of_N (87 + n).

Definition hex_value (c : ascii) : option N :=
  let code := N_of_ascii c in
  if ((48 <=? code) && (code <=? 57))%N then Some (code - 48)%N
  else if ((97 <=? code) && (code <=? 102))%N then Some (code - 87)%N
  else None.

Definition encode_byte (b : byte) (tail : string) : string :=
  let n := Byte.to_N b in
  String (hex_digit (n / 16)) (String (hex_digit (n mod 16)) tail).

Definition decode_pair (c1 c2 : ascii) : option byte :=
  match hex_value c1, hex_value c2 with
  | Some h, Some l => Byte.of_N (16 * h + l)
  | _, _ => None
  end.

Definition encode (bs : bytes) : string := fold_right encode_byte EmptyString bs.

(** Decoding stops at the first pair that is not two hexadecimal digits. *)
Fixpoint decode (s : string) : bytes :=
  match s with
  | String c1 (String c2 rest) =>
      match decode_pair c1 c2 with
      | Some b => b :: decode rest
      | None => []
      end
  | _ => []
  end.

#[export] Instance base64 : Base64 :=
  {| toString_base64 := encode; from_base64 := decode |}.

(** A field: its length in unary ([x01] repeated, closed by [x00]), then
    its octets. *)
Definition frame (field : bytes) : bytes :=
  repeat x01 (length field) ++ x00 :: field.

Fixpoint unframe_from (count : nat) (input : bytes) : option (bytes * bytes) :=
  match input with
  | x00 :: rest =>
      if Nat.leb count (length rest) then Some (firstn count rest, skipn count rest)
      else None
  | x01 :: rest => unframe_from (S count) rest
  | _ => None
  end.

Definition unframe (input : bytes) : option (bytes * bytes) := unframe_from 0 input.

Definition type_payment : byte := x01.
Definition type_fulfillment : byte := x09.

Definition malformed {A} : Completion A := Throw (Error "Packet has incorrect type").

Definition serialize_payment (p : IlpPayment) : bytes :=
  type_payment
    :: frame (list_byte_of_string (payment_amount p))
    ++ frame (list_byte_of_string (payment_account p))
    ++ frame (decode (payment_data p)).

Definition deserialize_payment (v : JsIlp) : Completion IlpPayment :=
  match v with
  | IlpBuffer (x01 :: body) =>
      match unframe body with
      | Some (amount_, body1) =>
          match unframe body1 with
          | Some (account_, body2) =>
              match unframe body2 with
              | Some (data_, _) =>
                  Normal {| payment_account := string_of_list_byte account_;
                            payment_amount := string_of_list_byte amount_;
                            payment_data := encode data_ |}
              | None => malformed
              end
          | None => malformed
          end
      | None => malformed
      end
  | IlpBuffer _ => malformed
  | _ => Throw (TypeError "Reader must be given a Buffer")
  end.

Definition serialize_fulfillment (f : IlpFulfillment) : bytes :=
  type_fulfillment :: frame (decode (ilp_fulfillment_data f)).

Definition deserialize_fulfillment (v : JsIlp) : Completion IlpFulfillment :=
  match v with
  | IlpBuffer (x09 :: body) =>
      match unframe body with
      | Some (data_, _) => Normal {| ilp_fulfillment_data := encode data_ |}
      | None => malformed
      end
  | IlpBuffer _ => malformed
  | _ => Throw (TypeError "Reader must be given a Buffer")
  end.

#[export] Instance ilpPacket : IlpPacket :=
  {| serializeIlpPayment := serialize_payment;
     deserializeIlpPayment := deserialize_payment;
     serializeIlpFulfillment := serialize_fulfillment;
     deserializeIlpFulfillment := deserialize_fulfillment |}.

End TestCodec.

(** ** Sample inputs *)

Module Sample.
Import TestCodec.

Definition info_usd : PluginInfo := mkPluginInfo "g.usd." ["g.usd.connector1"].

(** A ledger plugin with no connector configured. *)
Definition info_isolated : PluginInfo := mkPluginInfo "g.usd." [].

Definition old_usd : OldPlugin := mkOldPlugin info_usd (fun _ _ _ => None) [].
Definition old_isolated : OldPlugin := mkOldPlugin info_isolated (fun _ _ _ => None) [].

Definition id1 : string := "5857d460-2a46-4545-8311-1539d99e78e8".
Definition id2 : string := "b51ec0b2-5b3a-4e0e-9d3e-0c1a8c5e2d11".

(** A request of the documented shape, for a local account. *)
Definition request_alice : Transfer :=
  mkTransfer "10" "g.usd.connector1.alice" [x68; x69] "condition-1"
    "2017-12-24T00:00:00.000Z" "" None.

(** A request for an account on another ledger. *)
Definition request_bob : Transfer :=
  mkTransfer "25" "g.eur.bob" [x62; x6f; x62] "condition-2"
    "2017-12-24T00:00:00.000Z" "" None.

(** A request object that carries a [sendTransfer] method of its own, whose
    promise fulfills. *)
Definition request_with_method : Transfer :=
  mkTransfer "10" "g.usd.connector1.alice" [x68; x69] "condition-1"
    "2017-12-24T00:00:00.000Z" "" (Some (fun _ => MethodPromiseFulfills)).

(** The adapter after [sendTransfer(request_with_method)]: one entry, whose
    promise is pending. *)
Definition st_pending : Plugin :=
  snd (sendTransfer id1 request_with_method (newPlugin old_usd)).

Definition handler_accept : TransferHandler :=
  fun transfer => HandlerResolves (mkFulfillmentResult "fulfillment-1" (data transfer)).

Definition handler_throwing : TransferHandler :=
  fun _ => HandlerThrows (Error "handler failed").

Definition handler_rejecting : TransferHandler :=
  fun _ => HandlerRejects (Opaque "declined").

(** The adapter with [handler_accept] registered. *)
Definition st_registered : Plugin :=
  snd (registerTransferHandler (ArgFunction handler_accept) (newPlugin old_usd)).

(** An incoming transfer carrying the envelope that [sendTransfer] builds
    for [request_alice]. *)
Definition incoming_alice : OldTransferRecord :=
  build_lpi1Transfer id2 "g.usd.connector1" "g.usd." request_alice.

(** An incoming transfer without an [ilp] field. *)
Definition incoming_without_ilp : OldTransferRecord :=
  mkOldTransferRecord id2 "10" "g.usd.connector1" "g.usd." IlpUndefined
    "condition-1" "2017-12-24T00:00:00.000Z" "".

(** An incoming transfer whose [ilp] field is the empty string. *)
Definition incoming_empty_ilp : OldTransferRecord :=
  mkOldTransferRecord id2 "10" "g.usd.connector1" "g.usd." (IlpString "")
    "condition-1" "2017-12-24T00:00:00.000Z" "".

(** The event argument [transfer] of a completion event for [id1]. *)
Definition outgoing1 : OldTransferRecord :=
  mkOldTransferRecord id1 "10" "g.usd.connector1" "g.usd." IlpUndefined
    "condition-1" "2017-12-24T00:00:00.000Z" "".

(** A fulfillment envelope whose payload is the two octets [x6f x6b]. *)
Definition envelope_ok : JsIlp :=
  IlpBuffer (serializeIlpFulfillment (mkIlpFulfillment (toString_base64 [x6f; x6b]))).

End Sample.

(** ** The export of the module *)

(** The results of [typeof] other than ["object"]. *)
Inductive JsKind :=
  | KindUndefined
  | KindBoolean
  | KindNumber
  | KindString
  | KindSymbol
  | KindFunction.

Definition typeof_kind (k : JsKind) : string :=
  match k with
  | KindUndefined => "undefined"
  | KindBoolean => "boolean"
  | KindNumber => "number"
  | KindString => "string"
  | KindSymbol => "symbol"
  | KindFunction => "function"
  end.

(** The value of [oldPlugin.constructor]: absent, or a function with the
    number found under its [lpiVersion] property, if any. *)
Inductive JsConstructor :=
  | ConstructorUndefined
  | ConstructorFunction (lpiVersion : option Z).

(** An object handed to the module: what the export function reads of it,
    and the plugin it is.  An object whose [sendTransfer] is a function is
    taken to be an event emitter, as the constructor of [Plugin] needs. *)
Record PluginObject := mkPluginObject {
  object_sendTransfer : JsKind + unit;
  object_constructor : JsConstructor;
  object_plugin : OldPlugin
}.

(** The values the export function may receive or return.  An instance of
    the class [Plugin] is an object, its [sendTransfer] is a method, and its
    constructor carries [lpiVersion = 2]. *)
Inductive JsValue :=
  | ValuePrimitive (k : JsKind)
  | ValueNull
  | ValueObject (o : PluginObject)
  | ValueAdapter (p : Plugin).

(** [typeof value]. *)
Definition typeof (value : JsValue) : string :=
  match value with
  | ValuePrimitive k => typeof_kind k
  | ValueNull | ValueObject _ | ValueAdapter _ => "object"
  end.

(** [typeof] of a property that holds a value of kind [k], or an object
    ([inr tt]). *)
Definition typeof_property (v : JsKind + unit) : string :=
  match v with
  | inl k => typeof_kind k
  | inr _ => "object"
  end.

(** [typeof oldPlugin.sendTransfer], for an [oldPlugin] that passed the first
    check: reading a property of [null] throws. *)
Definition typeof_sendTransfer (value : JsValue) : Completion string :=
  match value with
  | ValueNull => Throw (TypeError "Cannot read property 'sendTransfer' of null")
  | ValuePrimitive _ => Normal "undefined"
  | ValueObject o => Normal (typeof_property (object_sendTransfer o))
  | ValueAdapter _ => Normal "function"
  end.

(** [oldPlugin.constructor.lpiVersion]. *)
Definition constructor_lpiVersion (value : JsValue) : Completion (option Z) :=
  match value with
  | ValueObject o =>
      match object_constructor o with
      | ConstructorUndefined =>
          Throw (TypeError "Cannot read property 'lpiVersion' of undefined")
      | ConstructorFunction v => Normal v
      end
  | ValueAdapter _ => Normal (Some 2%Z)
  | ValueNull => Throw (TypeError "Cannot read property 'constructor' of null")
  | ValuePrimitive _ => Normal None
  end.

(** [value === n] for a property that holds the number [value], if any. *)
Definition strict_eq_number (value : option Z) (n : Z) : bool :=
  match value with
  | Some m => Z.eqb m n
  | None => false
  end.

(** [module.exports = (oldPlugin) => ...]. *)
Definition module_exports (oldPlugin : JsValue) : Completion JsValue :=
  if negb (JsString.strict_eq (typeof oldPlugin) "object") then
    Throw (TypeError "not a plugin: not an object")
  else
    match typeof_sendTransfer oldPlugin with
    | Throw e => Throw e
    | Normal kind =>
        if negb (JsString.strict_eq kind "function") then
          Throw (TypeError "not a plugin: no sendTransfer method")
        else
          match constructor_lpiVersion oldPlugin with
          | Throw e => Throw e
          | Normal version =>
              if strict_eq_number version 2 then Normal oldPlugin
              else
                match oldPlugin with
                | ValueObject o => Normal (ValueAdapter (newPlugin (object_plugin o)))
                | other => Normal other
                end
          end
    end.

(** ** The replaced [emit] of the wrapped plugin *)

Definition PASSTHROUGH_EVENTS : list string :=
  ["connect"; "disconnect"; "error"; "info_change"].

(** [array.indexOf(x)], from position [i]: the first index holding a value
    strictly equal to [x], or [-1]. *)
Fixpoint indexOf_from (l : list string) (x : string) (i : Z) : Z :=
  match l with
  | [] => (-1)%Z
  | y :: rest => if JsString.strict_eq y x then i else indexOf_from rest x (i + 1)%Z
  end.

Definition indexOf (l : list string) (x : string) : Z := indexOf_from l x 0%Z.

(** The arrow function the constructor stores in [oldPlugin.emit].
    [originalEmit] is the emitter's own [emit], whatever it does to the
    world [W] it runs in, listeners included, and whatever it returns in
    [R].  The arrow function has no [return] statement: the result of
    [originalEmit] is dropped and a normal completion carries [undefined],
    written [tt].  The class [Plugin] extends nothing and declares no
    [emit], so the call [this.emit(...)] is a call of [undefined]. *)
Definition emit {A W R : Type}
    (originalEmit : string -> A -> W -> Completion R * W)
    (eventType : string) (args : A) (w : W) : Completion unit * W :=
  match originalEmit eventType args w with
  | (Throw e, w') => (Throw e, w')
  | (Normal _, w') =>
      if negb (Z.eqb (indexOf PASSTHROUGH_EVENTS eventType) (-1)) then
        (Throw (TypeError "this.emit is not a function"), w')
      else (Normal tt, w')
  end.

(** The event names the constructor subscribes its handlers to. *)
Definition SUBSCRIBED_EVENTS : list string :=
  ["outgoing_fulfill"; "outgoing_reject"; "outgoing_cancel"; "incoming_prepare"].

(** The envelope that [_handleIncomingPrepare] builds from the response of
    the transfer handler. *)
Definition fulfillment_envelope `{B : Base64} `{C : IlpPacket}
    (r : FulfillmentResult) : bytes :=
  serializeIlpFulfillment
    {| ilp_fulfillment_data := toString_base64 (fulfillment_data r) |}.

(** ** Further vocabulary *)

(** The continuations of every entry refer to a promise that exists. *)
Definition entries_valid (st : Plugin) : Prop :=
  forall id entry,
    transfers st !! id = Some entry -> resolve entry < length (promises st).

(** Entries under different identifiers refer to different promises. *)
Definition entries_distinct (st : Plugin) : Prop :=
  forall id1 id2 entry1 entry2,
    transfers st !! id1 = Some entry1 ->
    transfers st !! id2 = Some entry2 ->
    resolve entry1 = resolve entry2 -> id1 = id2.

(** A fulfillment, rejection or cancellation event for the transfer [id]. *)
Definition completion_event_for (id : string) (op : Operation) : bool :=
  match op with
  | Ev_outgoing_fulfill transfer _ _ => String.eqb (lpi1_id transfer) id
  | Ev_outgoing_reject transfer _ => String.eqb (lpi1_id transfer) id
  | Ev_outgoing_cancel transfer _ => String.eqb (lpi1_id transfer) id
  | _ => false
  end.

(** The operations that can call the wrapped plugin: [sendTransfer] reads
    [getInfo()], an incoming-prepare event submits a fulfillment or a
    rejection, a pass-through method forwards its call. *)
Definition reaches_oldPlugin (op : Operation) : bool :=
  match op with
  | Op_sendTransfer _ _ | Ev_incoming_prepare _ | Op_passthrough _ => true
  | _ => false
  end.

(** The operations that can write [this._transferHandler]. *)
Definition writes_transferHandler (op : Operation) : bool :=
  match op with
  | Op_registerTransferHandler _ | Op_deregisterTransferHandler => true
  | _ => false
  end.

(** The operations that can create or settle a promise. *)
Definition touches_promises (op : Operation) : bool :=
  match op with
  | Op_sendTransfer _ _ | Ev_outgoing_fulfill _ _ _
  | Ev_outgoing_reject _ _ | Ev_outgoing_cancel _ _ => true
  | _ => false
  end.

(** [sendTransfer] fails for want of a delivery address. *)
Definition no_valid_destination (info : PluginInfo) (destination : string) : Prop :=
  (prefix info = ""
   /\ (destination = "" \/ exists rest, destination = String "." rest))
  \/ (startsWith (prefix info) destination = false
      /\ (connectors info !! 0%nat = None \/ connectors info !! 0%nat = Some "")).

(** ** More sample inputs *)

Module SampleExtra.
Import TestCodec Sample.

(** A wrapped plugin whose [fulfillCondition] throws synchronously. *)
Definition old_throwing : OldPlugin :=
  mkOldPlugin info_usd (fun _ _ _ => Some (Error "not connected")) [].

Definition st_registered_throwing : Plugin :=
  snd (registerTransferHandler (ArgFunction handler_accept) (newPlugin old_throwing)).

(** A second request carrying a method of its own, sent under [id2]. *)
Definition st_two_pending : Plugin :=
  snd (sendTransfer id2 request_with_method st_pending).

Definition outgoing2 : OldTransferRecord :=
  mkOldTransferRecord id2 "10" "g.usd.connector1" "g.usd." IlpUndefined
    "condition-1" "2017-12-24T00:00:00.000Z" "".

(** An old-interface plugin object, as an instance of some class without
    [lpiVersion]. *)
Definition object_usd : PluginObject :=
  mkPluginObject (inl KindFunction) (ConstructorFunction None) old_usd.

(** An object without a [sendTransfer] method. *)
Definition object_without_method : PluginObject :=
  mkPluginObject (inl KindUndefined) (ConstructorFunction None) old_usd.

(** An emitter's own [emit] that records the event names it delivers and
    returns [true], as an emitter with a listener for the event does. *)
Definition recording_emit (eventType : string) (args : unit) (log : list string)
  : Completion bool * list string :=
  (Normal true, log ++ [eventType]).

(** The adapter with [handler_throwing] registered. *)
Definition st_registered_failing : Plugin :=
  snd (registerTransferHandler (ArgFunction handler_throwing) (newPlugin old_usd)).

(** A handler that throws [null]. *)
Definition handler_throwing_null : TransferHandler :=
  fun _ => HandlerThrows NullValue.

Definition st_registered_null : Plugin :=
  snd (registerTransferHandler (ArgFunction handler_throwing_null) (newPlugin old_usd)).

(** A handler whose promise never settles. *)
Definition handler_silent : TransferHandler :=
  fun _ => HandlerNeverSettles.

Definition st_registered_silent : Plugin :=
  snd (registerTransferHandler (ArgFunction handler_silent) (newPlugin old_usd)).

(** The fulfillment envelope [envelope_ok] as base64 text, the form in
    which [_handleIncomingPrepare] accepts the [ilp] field. *)
Definition envelope_as_text : JsIlp :=
  IlpString
    (toString_base64
       (serializeIlpFulfillment (mkIlpFulfillment (toString_base64 [x6f; x6b])))).

(** A completion event whose transfer identifier is [constructor]. *)
Definition outgoing_constructor : OldTransferRecord :=
  mkOldTransferRecord "constructor" "10" "g.usd.connector1" "g.usd." IlpUndefined
    "condition-1" "2017-12-24T00:00:00.000Z" "".

End SampleExtra.

(** * Properties *)

(** ** The test codec satisfies the contract *)

Module TestCodecFacts.
Import TestCodec.

Lemma decode_pair_encode_byte (b : byte) (tail : string) :
  decode (encode_byte b tail) = b :: decode tail.
Proof. destruct b; reflexivity. Qed.

Lemma decode_encode (bs : bytes) : decode (encode bs) = bs.
Proof.
  induction bs as [|b bs IH]; [reflexivity|].
  cbn [encode fold_right]. rewrite decode_pair_encode_byte.
  f_equal. exact IH.
Qed.

Lemma unframe_from_frame (field tail : bytes) (m count : nat) :
  length field = (count + m)%nat ->
  unframe_from count (repeat x01 m ++ x00 :: field ++ tail) = Some (field, tail).
Proof.
  revert count. induction m as [|m IH]; intros count Hlen; cbn.
  - rewrite Nat.add_0_r in Hlen. subst count.
    rewrite length_app.
    replace (length field <=? length field + length tail)%nat with true
      by (symmetry; apply Nat.leb_le; lia).
    rewrite take_app_length, drop_app_length. reflexivity.
  - apply IH. lia.
Qed.

Lemma unframe_frame (field tail : bytes) :
  unframe (frame field ++ tail) = Some (field, tail).
Proof.
  unfold unframe, frame. rewrite <- app_assoc.
  apply (unframe_from_frame field tail (length field) 0). reflexivity.
Qed.

Lemma unframe_frame_end (field : bytes) : unframe (frame field) = Some (field, []).
Proof. rewrite <- (app_nil_r (frame field)) at 1. apply unframe_frame. Qed.

Lemma deserialize_serialize_payment (p : IlpPayment) :
  deserialize_payment (IlpBuffer (serialize_payment p))
  = Normal {| payment_account :=
                string_of_list_byte (list_byte_of_string (payment_account p));
              payment_amount :=
                string_of_list_byte (list_byte_of_string (payment_amount p));
              payment_data := encode (decode (payment_data p)) |}.
Proof.
  unfold deserialize_payment, serialize_payment, type_payment.
  rewrite !unframe_frame, unframe_frame_end. reflexivity.
Qed.

Lemma deserialize_serialize_fulfillment (f : IlpFulfillment) :
  deserialize_fulfillment (IlpBuffer (serialize_fulfillment f))
  = Normal {| ilp_fulfillment_data := encode (decode (ilp_fulfillment_data f)) |}.
Proof.
  unfold deserialize_fulfillment, serialize_fulfillment, type_fulfillment.
  rewrite unframe_frame_end. reflexivity.
Qed.

Lemma laws : CodecLaws base64 ilpPacket.
Proof.
  split.
  - exact decode_encode.
  - intros p. eexists. split; [apply deserialize_serialize_payment|].
    split; cbn [payment_account payment_data].
    + apply string_of_list_byte_of_string.
    + apply decode_encode.
  - intros f. eexists. split; [apply deserialize_serialize_fulfillment|].
    cbn [ilp_fulfillment_data]. apply decode_encode.
Qed.

End TestCodecFacts.

(** ** Delivery address *)

Example localDeliveryAddress_local :
  localDeliveryAddress (mkPluginInfo "g.usd." ["g.usd.connector1"])
    "g.usd.connector1.alice" = Some "g.usd.connector1".
Proof. reflexivity. Qed.

Example localDeliveryAddress_remote :
  localDeliveryAddress (mkPluginInfo "g.usd." ["g.usd.connector1"])
    "g.eur.bob" = Some "g.usd.connector1".
Proof. reflexivity. Qed.


Module JsStringFacts.
Import JsString.

Lemma append_nil_l (s : string) : "" +:+ s = s.
Proof. reflexivity. Qed.

Lemma append_cons (c : ascii) (p s : string) : String c p +:+ s = String c (p +:+ s).
Proof. reflexivity. Qed.

Lemma substring_all (s : string) : String.substring 0 (String.length s) s = s.
Proof. induction s as [|c s IH]; cbn; [reflexivity | f_equal; exact IH]. Qed.

Lemma substring_0_app (p s : string) :
  String.substring 0 (String.length p) (p +:+ s) = p.
Proof.
  induction p as [|c p IH].
  - rewrite append_nil_l. destruct s; reflexivity.
  - rewrite append_cons. cbn. f_equal. exact IH.
Qed.

Lemma substring_skip_app (p s : string) :
  String.substring (String.length p) (String.length s) (p +:+ s) = s.
Proof.
  induction p as [|c p IH].
  - rewrite append_nil_l. apply substring_all.
  - rewrite append_cons. cbn. exact IH.
Qed.

Lemma length_app_string (p s : string) :
  String.length (p +:+ s) = (String.length p + String.length s)%nat.
Proof.
  induction p as [|c p IH]; [reflexivity|].
  rewrite append_cons. cbn. f_equal. exact IH.
Qed.

Lemma substring2_from_0 (s : string) (n : nat) :
  substring2 s 0 n = String.substring 0 (Nat.min n (String.length s)) s.
Proof.
  unfold substring2. cbn zeta.
  rewrite !Nat.min_0_l, Nat.max_0_l, Nat.sub_0_r. reflexivity.
Qed.

Lemma substring1_app (p s : string) : substring1 (p +:+ s) (String.length p) = s.
Proof.
  unfold substring1, substring2. rewrite length_app_string.
  rewrite Nat.min_id.
  replace (Nat.min (String.length p) (String.length p + String.length s))
    with (String.length p) by lia.
  replace (Nat.min (String.length p) (String.length p + String.length s))
    with (String.length p) by lia.
  replace (Nat.max (String.length p) (String.length p + String.length s))
    with (String.length p + String.length s)%nat by lia.
  replace (String.length p + String.length s - String.length p)%nat
    with (String.length s) by lia.
  apply substring_skip_app.
Qed.

(** A leading piece of [s] that equals [p] exhibits [p] as a prefix. *)
Lemma prefix_of_substring (p s : string) :
  String.substring 0 (Nat.min (String.length p) (String.length s)) s = p ->
  exists suffix, s = p +:+ suffix.
Proof.
  revert s. induction p as [|c p IH]; intros s Heq.
  - exists s. reflexivity.
  - destruct s as [|d s]; cbn in Heq; [discriminate|].
    injection Heq as -> Hrest.
    destruct (IH s Hrest) as [suffix ->].
    exists suffix. reflexivity.
Qed.

Lemma startsWith_spec (p s : string) :
  startsWith p s = true <-> exists suffix, s = p +:+ suffix.
Proof.
  unfold startsWith, strict_eq. rewrite substring2_from_0, String.eqb_eq.
  split.
  - apply prefix_of_substring.
  - intros [suffix ->]. rewrite length_app_string.
    replace (Nat.min (String.length p) (String.length p + String.length suffix))
      with (String.length p) by lia.
    apply substring_0_app.
Qed.

Lemma split_nonempty (sep : ascii) (s : string) : split sep s <> [].
Proof.
  destruct s as [|c s]; cbn; [discriminate|].
  destruct (Ascii.eqb c sep); [discriminate|].
  destruct (split sep s); discriminate.
Qed.

(** The first element of [s.split(sep)] is the part of [s] before the first
    separator. *)
Lemma split_head (sep : ascii) (s : string) :
  exists seg rest,
    s = seg +:+ rest
    /\ contains sep seg = false
    /\ (rest = "" \/ exists r, rest = String sep r)
    /\ split sep s !! 0%nat = Some seg.
Proof.
  induction s as [|c s (seg & rest & Hs & Hseg & Hrest & Hhead)].
  - exists "", "". cbn. auto.
  - cbn [split]. destruct (Ascii.eqb c sep) eqn:Hc.
    + apply Ascii.eqb_eq in Hc. subst c.
      exists "", (String sep s). cbn. eauto 6.
    + exists (String c seg), rest. cbn [contains]. rewrite Hc, Hseg.
      destruct (split sep s) as [|x xs] eqn:Hsplit; [discriminate|].
      cbn in Hhead. injection Hhead as ->.
      subst s. cbn. auto.
Qed.

End JsStringFacts.

Lemma localDeliveryAddress_under_prefix (info : PluginInfo) (suffix : string) :
  exists seg rest,
    suffix = seg +:+ rest
    /\ JsString.contains "." seg = false
    /\ (rest = "" \/ exists r, rest = String "." r)
    /\ localDeliveryAddress info (prefix info +:+ suffix) = Some (prefix info +:+ seg).
Proof.
  destruct (JsStringFacts.split_head "." suffix) as (seg & rest & Hs & Hseg & Hrest & Hhead).
  exists seg, rest. repeat split; try assumption.
  unfold localDeliveryAddress.
  replace (startsWith (prefix info) (prefix info +:+ suffix)) with true
    by (symmetry; apply JsStringFacts.startsWith_spec; eauto).
  rewrite JsStringFacts.substring1_app, Hhead. reflexivity.
Qed.

Lemma localDeliveryAddress_outside_prefix (info : PluginInfo) (destination : string) :
  startsWith (prefix info) destination = false ->
  localDeliveryAddress info destination = connectors info !! 0%nat.
Proof. intros H. unfold localDeliveryAddress. now rewrite H. Qed.

(** C2.  The local delivery address [to]: when the destination starts with
    the ledger prefix, it is the prefix followed by the first dot-separated
    segment of what follows the prefix; otherwise it is the first configured
    connector.  With prefix [g.usd.], the destination
    [g.usd.connector1.alice] gives [g.usd.connector1]. *)
Theorem C2_local_delivery_address :
  (forall (info : PluginInfo) (destination : string),
      (exists suffix, destination = prefix info +:+ suffix) ->
      exists seg rest,
        destination = prefix info +:+ seg +:+ rest
        /\ JsString.contains "." seg = false
        /\ (rest = "" \/ exists r, rest = String "." r)
        /\ localDeliveryAddress info destination = Some (prefix info +:+ seg))
  /\ (forall (info : PluginInfo) (destination : string),
      ~ (exists suffix, destination = prefix info +:+ suffix) ->
      localDeliveryAddress info destination = connectors info !! 0%nat)
  /\ localDeliveryAddress (mkPluginInfo "g.usd." ["g.usd.connector1"])
       "g.usd.connector1.alice" = Some "g.usd.connector1".
Proof.
  split; [|split].
  - intros info destination [suffix ->].
    destruct (localDeliveryAddress_under_prefix info suffix)
      as (seg & rest & -> & Hseg & Hrest & Hto).
    exists seg, rest. auto.
  - intros info destination Hnot.
    apply localDeliveryAddress_outside_prefix.
    destruct (startsWith (prefix info) destination) eqn:Hsw; [|reflexivity].
    exfalso. apply Hnot. now apply JsStringFacts.startsWith_spec.
  - reflexivity.
Qed.

(** The first connector is used for a destination on another ledger. *)
Lemma C2_witness :
  localDeliveryAddress Sample.info_usd "g.eur.bob" = Some "g.usd.connector1".
Proof.
  rewrite (proj1 (proj2 C2_local_delivery_address) Sample.info_usd "g.eur.bob").
  - reflexivity.
  - intros [suffix Heq]. discriminate Heq.
Defined.

(** ** Frame properties of the state updates *)

Lemma settle_frame (p : nat) (o : PromiseState) (st : Plugin) :
  oldPlugin (settle p o st) = oldPlugin st
  /\ transfers (settle p o st) = transfers st
  /\ _transferHandler (settle p o st) = _transferHandler st
  /\ trace (settle p o st) = trace st.
Proof.
  unfold settle. destruct (promises st !! p) as [[| |]|]; auto.
Qed.

Lemma settle_trace (p : nat) (o : PromiseState) (st : Plugin) :
  trace (settle p o st) = trace st.
Proof. apply settle_frame. Qed.

Lemma settle_pending (p : nat) (o : PromiseState) (st : Plugin) :
  promises st !! p = Some Pending ->
  promises (settle p o st) !! p = Some o.
Proof.
  intros Hp. unfold settle. rewrite Hp. cbn.
  apply list_lookup_insert_eq. eapply lookup_lt_Some, Hp.
Qed.

Lemma settle_not_pending (p : nat) (o : PromiseState) (st : Plugin) :
  promises st !! p <> Some Pending -> settle p o st = st.
Proof.
  intros Hp. unfold settle. destruct (promises st !! p) as [[| |]|]; congruence.
Qed.

Lemma settle_other (p q : nat) (o : PromiseState) (st : Plugin) :
  p <> q -> promises (settle p o st) !! q = promises st !! q.
Proof.
  intros Hne. unfold settle. destruct (promises st !! p) as [[| |]|]; try reflexivity.
  cbn. now apply list_lookup_insert_ne.
Qed.

(** A promise that is settled stays as it is. *)
Lemma settle_settled (p q : nat) (o : PromiseState) (st : Plugin) (s : PromiseState) :
  promises st !! q = Some s -> s <> Pending ->
  promises (settle p o st) !! q = Some s.
Proof.
  intros Hq Hs. destruct (decide (p = q)) as [->|Hne].
  - rewrite settle_not_pending; [exact Hq | congruence].
  - now rewrite settle_other.
Qed.

Lemma settle_length (p : nat) (o : PromiseState) (st : Plugin) :
  length (promises (settle p o st)) = length (promises st).
Proof.
  unfold settle. destruct (promises st !! p) as [[| |]|]; try reflexivity.
  cbn. apply length_insert.
Qed.

Lemma call_reject_frame (p : nat) (reason : JsError) (st : Plugin) :
  oldPlugin (call_reject p reason st) = oldPlugin st
  /\ transfers (call_reject p reason st) = transfers st
  /\ _transferHandler (call_reject p reason st) = _transferHandler st
  /\ trace (call_reject p reason st) = trace st ++ [CalledReject p reason].
Proof.
  unfold call_reject.
  destruct (settle_frame p (Rejected reason) (record_event (CalledReject p reason) st))
    as (-> & -> & -> & ->). auto.
Qed.

Lemma call_resolve_frame (p : nat) (value : FulfillmentResult) (st : Plugin) :
  oldPlugin (call_resolve p value st) = oldPlugin st
  /\ transfers (call_resolve p value st) = transfers st
  /\ _transferHandler (call_resolve p value st) = _transferHandler st
  /\ trace (call_resolve p value st) = trace st ++ [CalledResolve p value].
Proof.
  unfold call_resolve.
  destruct (settle_frame p (Fulfilled value) (record_event (CalledResolve p value) st))
    as (-> & -> & -> & ->). auto.
Qed.

Section SendTransfer.
Context `{B : Base64} `{C : IlpPacket}.

Lemma executor_send_frame (p : nat) (transfer : Transfer)
    (lpi1Transfer : OldTransferRecord) (st : Plugin) :
  oldPlugin (executor_send p transfer lpi1Transfer st) = oldPlugin st
  /\ transfers (executor_send p transfer lpi1Transfer st) = transfers st
  /\ _transferHandler (executor_send p transfer lpi1Transfer st) = _transferHandler st.
Proof.
  unfold executor_send.
  destruct (sendTransfer_property transfer) as [method|].
  - destruct (method lpi1Transfer).
    + destruct (settle_frame p (Rejected e) (record_event (CalledRequestMethod lpi1Transfer) st))
        as (-> & -> & -> & _). auto.
    + destruct (settle_frame p
                  (Rejected (TypeError "transfer.sendTransfer(...).catch is not a function"))
                  (record_event (CalledRequestMethod lpi1Transfer) st))
        as (-> & -> & -> & _). auto.
    + auto.
    + destruct (call_reject_frame p e (record_event (CalledRequestMethod lpi1Transfer) st))
        as (-> & -> & -> & _). auto.
  - destruct (settle_frame p (Rejected (TypeError "transfer.sendTransfer is not a function")) st)
      as (-> & -> & -> & _). auto.
Qed.

(** Whatever the request, [sendTransfer] makes no call on the wrapped
    plugin. *)
Lemma sendTransfer_oldPlugin (id : string) (transfer : Transfer) (st : Plugin) :
  oldPlugin (snd (sendTransfer id transfer st)) = oldPlugin st.
Proof.
  unfold sendTransfer.
  destruct (falsy _); [reflexivity|]. cbn [snd].
  match goal with
  | |- oldPlugin (executor_send ?p ?t ?r ?s) = _ =>
      destruct (executor_send_frame p t r s) as (-> & _)
  end.
  reflexivity.
Qed.

(** The table after [sendTransfer]: untouched on failure, otherwise the
    entry for [id] is (over)written and nothing else changes. *)
Lemma sendTransfer_transfers (id : string) (transfer : Transfer) (st : Plugin) :
  transfers (snd (sendTransfer id transfer st)) =
    if falsy (localDeliveryAddress (getInfo st) (destination transfer))
    then transfers st
    else <[id := {| resolve := length (promises st); reject := length (promises st) |}]>
           (transfers st).
Proof.
  unfold sendTransfer.
  destruct (falsy _); [reflexivity|]. cbn [snd].
  match goal with
  | |- transfers (executor_send ?p ?t ?r ?s) = _ =>
      destruct (executor_send_frame p t r s) as (_ & -> & _)
  end.
  reflexivity.
Qed.

Lemma sendTransfer_transferHandler (id : string) (transfer : Transfer) (st : Plugin) :
  _transferHandler (snd (sendTransfer id transfer st)) = _transferHandler st.
Proof.
  unfold sendTransfer.
  destruct (falsy _); [reflexivity|]. cbn [snd].
  match goal with
  | |- _transferHandler (executor_send ?p ?t ?r ?s) = _ =>
      destruct (executor_send_frame p t r s) as (_ & _ & ->)
  end.
  reflexivity.
Qed.

Lemma settle_fresh (o : PromiseState) (st : Plugin) (ps : list PromiseState) :
  promises st = ps ++ [Pending] ->
  promises (settle (length ps) o st) = ps ++ [o].
Proof.
  intros Hps. unfold settle. rewrite Hps.
  rewrite lookup_app_r by lia. rewrite Nat.sub_diag. cbn.
  rewrite insert_app_r_alt by lia. now rewrite Nat.sub_diag.
Qed.

(** What [sendTransfer] does with a request it accepts, that is, when [to]
    is a non-empty string: the entry is written under [id]; a request
    without a [sendTransfer] property of its own gets its promise rejected
    with a [TypeError]; otherwise that property is called with the
    old-interface record. *)
Lemma sendTransfer_accepted (id : string) (transfer : Transfer) (st : Plugin)
    (to_ : string) :
  localDeliveryAddress (getInfo st) (destination transfer) = Some to_ ->
  to_ <> "" ->
  let p := length (promises st) in
  let lpi1Transfer := build_lpi1Transfer id to_ (prefix (getInfo st)) transfer in
  fst (sendTransfer id transfer st) = SendPromise p
  /\ transfers (snd (sendTransfer id transfer st))
     = <[id := {| resolve := p; reject := p |}]> (transfers st)
  /\ (sendTransfer_property transfer = None ->
      promises (snd (sendTransfer id transfer st))
      = promises st ++ [Rejected (TypeError "transfer.sendTransfer is not a function")]
      /\ trace (snd (sendTransfer id transfer st)) = trace st)
  /\ (forall method, sendTransfer_property transfer = Some method ->
      exists later,
        trace (snd (sendTransfer id transfer st))
        = trace st ++ CalledRequestMethod lpi1Transfer :: later).
Proof.
  intros Hto Hne p lpi1Transfer.
  assert (Hfalsy : falsy (localDeliveryAddress (getInfo st) (destination transfer)) = false).
  { rewrite Hto. cbn. now apply String.eqb_neq. }
  split; [unfold sendTransfer; now rewrite Hfalsy|].
  split; [rewrite sendTransfer_transfers; now rewrite Hfalsy|].
  unfold sendTransfer. rewrite Hfalsy, Hto. cbn [snd].
  change (default "" (Some to_)) with to_.
  fold lpi1Transfer. fold p. unfold executor_send. split.
  - intros ->. split.
    + now apply settle_fresh.
    + now rewrite settle_trace.
  - intros method ->. cbv zeta.
    destruct (method lpi1Transfer) as [e| | |e].
    + exists []. now rewrite settle_trace.
    + exists []. now rewrite settle_trace.
    + exists []. reflexivity.
    + exists [CalledReject p e]. unfold call_reject.
      rewrite settle_trace. cbn. now rewrite <- app_assoc.
Qed.

(** C3.  When the delivery-address computation yields no address,
    [sendTransfer] fails with the "No valid destination" error and leaves
    the adapter as it was: no entry is added to the correlation table and no
    call is made on the wrapped plugin. *)
Theorem C3_no_valid_destination_is_atomic
    (id : string) (transfer : Transfer) (st : Plugin) :
  falsy (localDeliveryAddress (getInfo st) (destination transfer)) = true ->
  sendTransfer id transfer st =
    (SendThrows (Error "No valid destination: no connector and destination is not local"), st)
  /\ transfers (snd (sendTransfer id transfer st)) = transfers st
  /\ calls (oldPlugin (snd (sendTransfer id transfer st))) = calls (oldPlugin st)
  /\ trace (snd (sendTransfer id transfer st)) = trace st.
Proof.
  intros Hto. unfold sendTransfer. rewrite Hto. auto.
Qed.

End SendTransfer.

(** The situation named by the claim: a destination outside the ledger
    prefix and no connector configured. *)
Lemma no_address_outside_prefix (info : PluginInfo) (destination : string) :
  startsWith (prefix info) destination = false ->
  connectors info = [] ->
  falsy (localDeliveryAddress info destination) = true.
Proof.
  intros Hsw Hc. rewrite localDeliveryAddress_outside_prefix by exact Hsw.
  rewrite Hc. reflexivity.
Qed.

Lemma C3_witness :
  sendTransfer (B := TestCodec.base64) (C := TestCodec.ilpPacket)
    Sample.id1 Sample.request_bob (newPlugin Sample.old_isolated) =
    (SendThrows (Error "No valid destination: no connector and destination is not local"),
     newPlugin Sample.old_isolated).
Proof.
  apply (C3_no_valid_destination_is_atomic
           Sample.id1 Sample.request_bob (newPlugin Sample.old_isolated)).
  apply no_address_outside_prefix; reflexivity.
Defined.

Lemma settle_lookup_inv (p q : nat) (o s : PromiseState) (st : Plugin) :
  promises (settle p o st) !! q = Some s ->
  promises st !! q = Some s
  \/ (q = p /\ promises st !! p = Some Pending /\ s = o).
Proof.
  intros Hq. destruct (decide (p = q)) as [->|Hne].
  - destruct (promises st !! q) as [[| |]|] eqn:Hold.
    + right. rewrite (settle_pending q o st Hold) in Hq. injection Hq as <-. auto.
    + left. rewrite settle_not_pending in Hq by congruence. congruence.
    + left. rewrite settle_not_pending in Hq by congruence. congruence.
    + left. rewrite settle_not_pending in Hq by congruence. congruence.
  - left. now rewrite settle_other in Hq.
Qed.

(** C1.  On a request accepted by [sendTransfer] the adapter builds the
    old-interface record and registers the pending transfer under the
    generated identifier, but the call that follows is made on the request
    object ([transfer.sendTransfer]), not on the wrapped plugin: no run of
    [sendTransfer] adds a call to the wrapped plugin's log, and for a request
    of the documented shape the returned promise is rejected at once with a
    [TypeError]. *)
Theorem C1_sendTransfer_bypasses_wrapped_plugin :
  (forall (B : Base64) (C : IlpPacket) (id : string) (transfer : Transfer) (st : Plugin),
      calls (oldPlugin (snd (sendTransfer id transfer st))) = calls (oldPlugin st))
  /\ (forall (B : Base64) (C : IlpPacket) (id : string) (transfer : Transfer)
             (st : Plugin) (to_ : string),
      localDeliveryAddress (getInfo st) (destination transfer) = Some to_ ->
      to_ <> "" ->
      sendTransfer_property transfer = None ->
      fst (sendTransfer id transfer st) = SendPromise (length (promises st))
      /\ transfers (snd (sendTransfer id transfer st)) !! id
         = Some {| resolve := length (promises st); reject := length (promises st) |}
      /\ promises (snd (sendTransfer id transfer st))
         = promises st ++ [Rejected (TypeError "transfer.sendTransfer is not a function")])
  /\ (let result :=
        sendTransfer (B := TestCodec.base64) (C := TestCodec.ilpPacket)
          Sample.id1 Sample.request_alice (newPlugin Sample.old_usd) in
      fst result = SendPromise 0
      /\ transfers (snd result) !! Sample.id1 = Some {| resolve := 0; reject := 0 |}
      /\ promises (snd result)
         = [Rejected (TypeError "transfer.sendTransfer is not a function")]
      /\ calls (oldPlugin (snd result)) = []
      /\ trace (snd result) = []).
Proof.
  split; [|split].
  - intros B C id transfer st. now rewrite sendTransfer_oldPlugin.
  - intros B C id transfer st to_ Hto Hne Hnone.
    destruct (sendTransfer_accepted id transfer st to_ Hto Hne)
      as (Hres & Htable & Hshape & _).
    split; [exact Hres|]. split.
    + rewrite Htable. apply lookup_insert_eq.
    + now apply Hshape.
  - cbv zeta. split; [reflexivity|]. split.
    + rewrite sendTransfer_transfers.
      replace (falsy _) with false by reflexivity.
      apply lookup_insert_eq.
    + repeat split; reflexivity.
Qed.

(** ** Outgoing completion handlers *)

Section Completion.
Context `{B : Base64} `{C : IlpPacket}.

Lemma handleOutgoingCancel_is_Reject (transfer : OldTransferRecord)
    (reason : JsError) (st : Plugin) :
  _handleOutgoingCancel transfer reason st = _handleOutgoingReject transfer reason st.
Proof. reflexivity. Qed.

Lemma handleOutgoingReject_pending (transfer : OldTransferRecord)
    (reason : JsError) (st : Plugin) (entry : PendingTransfer) :
  transfers st !! lpi1_id transfer = Some entry ->
  promises st !! reject entry = Some Pending ->
  _handleOutgoingReject transfer reason st
    = (Normal tt, call_reject (reject entry) reason st)
  /\ promises (snd (_handleOutgoingReject transfer reason st)) !! reject entry
     = Some (Rejected reason).
Proof.
  intros Hentry Hp. unfold _handleOutgoingReject. rewrite Hentry.
  split; [reflexivity|]. cbn [snd]. unfold call_reject.
  now apply settle_pending.
Qed.

(** The promises that an operation leaves fulfilled were fulfilled before,
    unless the operation is a fulfillment event that found the entry, whose
    envelope deserialized, and whose promise was pending. *)
Lemma step_fulfilled_inv (op : Operation) (st : Plugin) (p : nat)
    (value : FulfillmentResult) :
  promises (step op st) !! p = Some (Fulfilled value) ->
  promises st !! p = Some (Fulfilled value)
  \/ exists transfer ilp entry packet,
       op = Ev_outgoing_fulfill transfer (fulfillment value) ilp
       /\ transfers st !! lpi1_id transfer = Some entry
       /\ resolve entry = p
       /\ promises st !! p = Some Pending
       /\ deserializeIlpFulfillment ilp = Normal packet
       /\ fulfillment_data value = from_base64 (ilp_fulfillment_data packet).
Proof.
  destruct op as [id transfer|handler| |method|transfer f ilp|transfer reason
                 |transfer reason|lpi1Transfer]; cbn [step]; intros Hp.
  - (* sendTransfer *)
    left. unfold sendTransfer in Hp.
    destruct (falsy _); [exact Hp|]. cbn [snd] in Hp.
    assert (Hnew : forall s, (promises st ++ [Pending]) !! p = Some s ->
                             s <> Pending -> promises st !! p = Some s).
    { intros s Hs Hne. apply lookup_app_Some in Hs as [Hs|[_ Hs]]; [exact Hs|].
      apply list_lookup_singleton_Some in Hs as [_ <-]. congruence. }
    unfold executor_send in Hp.
    destruct (sendTransfer_property transfer) as [method|].
    + destruct (method _); unfold call_reject in Hp;
        try (apply settle_lookup_inv in Hp as [Hp|(_ & _ & Hp)]; [|discriminate]);
        apply Hnew in Hp; try exact Hp; discriminate.
    + apply settle_lookup_inv in Hp as [Hp|(_ & _ & Hp)]; [|discriminate].
      apply Hnew in Hp; [exact Hp | discriminate].
  - left. unfold registerTransferHandler in Hp.
    destruct (registered st); [exact Hp|]. destruct handler; exact Hp.
  - left. exact Hp.
  - left. exact Hp.
  - (* outgoing_fulfill *)
    unfold _handleOutgoingFulfill in Hp.
    destruct (transfers st !! lpi1_id transfer) as [entry|] eqn:Hentry;
      [|left; destruct (inherits_property _);
        [destruct (deserializeIlpFulfillment ilp)|]; exact Hp].
    destruct (deserializeIlpFulfillment ilp) as [packet|e] eqn:Hilp; [|left; exact Hp].
    cbn [snd] in Hp. unfold call_resolve in Hp.
    apply settle_lookup_inv in Hp as [Hp|(-> & Hpending & Hv)]; [left; exact Hp|].
    right. injection Hv as ->. exists transfer, ilp, entry, packet. auto 7.
  - left. unfold _handleOutgoingReject in Hp.
    destruct (transfers st !! lpi1_id transfer) as [entry|];
      [|destruct (inherits_property _); exact Hp].
    cbn [snd] in Hp. unfold call_reject in Hp.
    apply settle_lookup_inv in Hp as [Hp|(_ & _ & Hp)]; [exact Hp | discriminate].
  - left. unfold _handleOutgoingCancel in Hp.
    destruct (transfers st !! lpi1_id transfer) as [entry|];
      [|destruct (inherits_property _); exact Hp].
    cbn [snd] in Hp. unfold call_reject in Hp.
    apply settle_lookup_inv in Hp as [Hp|(_ & _ & Hp)]; [exact Hp | discriminate].
  - left. unfold _handleIncomingPrepare in Hp.
    destruct (incoming_view lpi1Transfer) as [view|e]; [|exact Hp].
    unfold process_incoming in Hp.
    destruct (_transferHandler st) as [| |handler]; try exact Hp.
    destruct (handler view) as [e|e|r|e|]; try exact Hp;
      try (destruct (catch_report _); exact Hp).
    destruct (fulfillCondition_throws _ _ _ _) as [e|]; [|exact Hp].
    destruct (catch_report e); exact Hp.
Qed.

End Completion.

Section CompletionClaims.
Context `{B : Base64} `{C : IlpPacket}.

(** C4.  A fulfillment event whose transfer identifier matches an entry of
    the correlation table, and whose envelope deserializes, calls the entry's
    [resolve] with exactly [{ fulfillment, data }]: the event's fulfillment,
    and the base64-decoded payload of the envelope.  When the entry is
    pending, that is, its promise is not yet settled, the promise is
    thereby resolved with that value.  A promise becomes fulfilled only
    through such an event. *)
Theorem C4_fulfillment_resolves_pending_promise :
  (forall (st : Plugin) (transfer : OldTransferRecord) (fulfillment_ : string)
          (ilp : JsIlp) (entry : PendingTransfer) (packet : IlpFulfillment),
      transfers st !! lpi1_id transfer = Some entry ->
      deserializeIlpFulfillment ilp = Normal packet ->
      let value := {| fulfillment := fulfillment_;
                      fulfillment_data := from_base64 (ilp_fulfillment_data packet) |} in
      fst (_handleOutgoingFulfill transfer fulfillment_ ilp st) = Normal tt
      /\ trace (snd (_handleOutgoingFulfill transfer fulfillment_ ilp st))
         = trace st ++ [CalledResolve (resolve entry) value]
      /\ (promises st !! resolve entry = Some Pending ->
          promises (snd (_handleOutgoingFulfill transfer fulfillment_ ilp st))
            !! resolve entry
          = Some (Fulfilled value)))
  /\ (forall (op : Operation) (st : Plugin) (p : nat) (value : FulfillmentResult),
      promises st !! p <> Some (Fulfilled value) ->
      promises (step op st) !! p = Some (Fulfilled value) ->
      exists transfer ilp entry packet,
        op = Ev_outgoing_fulfill transfer (fulfillment value) ilp
        /\ transfers st !! lpi1_id transfer = Some entry
        /\ resolve entry = p
        /\ promises st !! p = Some Pending
        /\ deserializeIlpFulfillment ilp = Normal packet
        /\ fulfillment_data value = from_base64 (ilp_fulfillment_data packet)).
Proof.
  split.
  - intros st transfer f ilp entry packet Hentry Hilp value.
    unfold _handleOutgoingFulfill. rewrite Hentry, Hilp. cbn [fst snd].
    fold value. split; [reflexivity|]. split.
    + apply call_resolve_frame.
    + intros Hp. unfold call_resolve. now apply settle_pending.
  - intros op st p value Hbefore Hafter.
    destruct (step_fulfilled_inv op st p value Hafter) as [Hold|Hev];
      [contradiction | exact Hev].
Qed.

(** C5.  A rejection event, and likewise a cancellation event, whose
    transfer identifier matches an entry calls the entry's [reject] with the
    reason supplied by the event, unmodified; when the entry is pending, that
    is, its promise is not yet settled, the promise is thereby rejected with
    that reason.  The cancellation handler behaves as the rejection handler
    on every input. *)
Theorem C5_reject_and_cancel_pass_reason :
  (forall (st : Plugin) (transfer : OldTransferRecord) (reason : JsError)
          (entry : PendingTransfer),
      transfers st !! lpi1_id transfer = Some entry ->
      (fst (_handleOutgoingReject transfer reason st) = Normal tt
       /\ trace (snd (_handleOutgoingReject transfer reason st))
          = trace st ++ [CalledReject (reject entry) reason]
       /\ (promises st !! reject entry = Some Pending ->
           promises (snd (_handleOutgoingReject transfer reason st)) !! reject entry
           = Some (Rejected reason)))
      /\ (fst (_handleOutgoingCancel transfer reason st) = Normal tt
          /\ trace (snd (_handleOutgoingCancel transfer reason st))
             = trace st ++ [CalledReject (reject entry) reason]
          /\ (promises st !! reject entry = Some Pending ->
              promises (snd (_handleOutgoingCancel transfer reason st)) !! reject entry
              = Some (Rejected reason))))
  /\ (forall (transfer : OldTransferRecord) (reason : JsError) (st : Plugin),
      _handleOutgoingCancel transfer reason st
      = _handleOutgoingReject transfer reason st).
Proof.
  split.
  - intros st transfer reason entry Hentry.
    change (_handleOutgoingCancel transfer reason st)
      with (_handleOutgoingReject transfer reason st).
    assert (H : fst (_handleOutgoingReject transfer reason st) = Normal tt
                /\ trace (snd (_handleOutgoingReject transfer reason st))
                   = trace st ++ [CalledReject (reject entry) reason]
                /\ (promises st !! reject entry = Some Pending ->
                    promises (snd (_handleOutgoingReject transfer reason st))
                      !! reject entry
                    = Some (Rejected reason))).
    { unfold _handleOutgoingReject. rewrite Hentry. cbn [fst snd].
      split; [reflexivity|]. split.
      - apply call_reject_frame.
      - intros Hp. unfold call_reject. now apply settle_pending. }
    split; exact H.
  - intros. reflexivity.
Qed.

(** An identifier that has no entry and names no inherited property is
    ignored by the three handlers. *)
Lemma handlers_ignore_unknown (st : Plugin) (transfer : OldTransferRecord) :
  transfers st !! lpi1_id transfer = None ->
  inherits_property (lpi1_id transfer) = false ->
  (forall fulfillment_ ilp,
      _handleOutgoingFulfill transfer fulfillment_ ilp st = (Normal tt, st))
  /\ (forall reason, _handleOutgoingReject transfer reason st = (Normal tt, st))
  /\ (forall reason, _handleOutgoingCancel transfer reason st = (Normal tt, st)).
Proof.
  intros Hnone Hown.
  unfold _handleOutgoingFulfill, _handleOutgoingReject, _handleOutgoingCancel.
  rewrite Hnone, Hown. auto.
Qed.

(** An identifier that has no entry but names an inherited property passes
    the guard of the three handlers, which then throw. *)
Lemma handlers_throw_on_inherited (st : Plugin) (transfer : OldTransferRecord) :
  transfers st !! lpi1_id transfer = None ->
  inherits_property (lpi1_id transfer) = true ->
  (forall fulfillment_ ilp,
      exists e, _handleOutgoingFulfill transfer fulfillment_ ilp st = (Throw e, st))
  /\ (forall reason,
        _handleOutgoingReject transfer reason st
        = (Throw (TypeError "reject is not a function"), st))
  /\ (forall reason,
        _handleOutgoingCancel transfer reason st
        = (Throw (TypeError "reject is not a function"), st)).
Proof.
  intros Hnone Hinherited.
  unfold _handleOutgoingFulfill, _handleOutgoingReject, _handleOutgoingCancel.
  rewrite Hnone, Hinherited. split; [|auto].
  intros f ilp. destruct (deserializeIlpFulfillment ilp); eauto.
Qed.

End CompletionClaims.

Lemma sample_pending_entry :
  transfers Sample.st_pending !! Sample.id1 = Some {| resolve := 0; reject := 0 |}.
Proof.
  unfold Sample.st_pending. rewrite sendTransfer_transfers.
  replace (falsy _) with false by reflexivity.
  apply lookup_insert_eq.
Defined.

Lemma sample_envelope_ok :
  deserializeIlpFulfillment (IlpPacket := TestCodec.ilpPacket) Sample.envelope_ok
  = Normal {| ilp_fulfillment_data := "6f6b" |}.
Proof. reflexivity. Defined.

Lemma C4_witness :
  promises
    (snd (_handleOutgoingFulfill (B := TestCodec.base64) (C := TestCodec.ilpPacket)
            Sample.outgoing1 "fulfillment-1" Sample.envelope_ok Sample.st_pending))
    !! 0%nat
  = Some (Fulfilled {| fulfillment := "fulfillment-1"; fulfillment_data := [x6f; x6b] |}).
Proof.
  apply (proj1 (C4_fulfillment_resolves_pending_promise
                  (B := TestCodec.base64) (C := TestCodec.ilpPacket))
           Sample.st_pending Sample.outgoing1 "fulfillment-1" Sample.envelope_ok
           {| resolve := 0; reject := 0 |} {| ilp_fulfillment_data := "6f6b" |}).
  - exact sample_pending_entry.
  - exact sample_envelope_ok.
  - reflexivity.
Defined.

(** A fulfillment event for a pending entry whose envelope does not
    deserialize (it is absent, or arrives as base64 text, or is a payment
    envelope) makes the handler throw before [resolve] is called: the
    promise stays pending and nothing is recorded. *)
Lemma C4_counterexample :
  transfers Sample.st_pending !! lpi1_id Sample.outgoing1
  = Some {| resolve := 0; reject := 0 |}
  /\ promises Sample.st_pending !! 0%nat = Some Pending
  /\ _handleOutgoingFulfill (B := TestCodec.base64) (C := TestCodec.ilpPacket)
       Sample.outgoing1 "fulfillment-1" IlpUndefined Sample.st_pending
     = (Throw (TypeError "Reader must be given a Buffer"), Sample.st_pending)
  /\ _handleOutgoingFulfill (B := TestCodec.base64) (C := TestCodec.ilpPacket)
       Sample.outgoing1 "fulfillment-1" SampleExtra.envelope_as_text Sample.st_pending
     = (Throw (TypeError "Reader must be given a Buffer"), Sample.st_pending)
  /\ _handleOutgoingFulfill (B := TestCodec.base64) (C := TestCodec.ilpPacket)
       Sample.outgoing1 "fulfillment-1" (lpi1_ilp Sample.incoming_alice)
       Sample.st_pending
     = (Throw (Error "Packet has incorrect type"), Sample.st_pending).
Proof.
  split; [exact sample_pending_entry|]. split; [reflexivity|].
  unfold _handleOutgoingFulfill.
  change (lpi1_id Sample.outgoing1) with Sample.id1.
  rewrite sample_pending_entry. repeat split.
Qed.

Lemma C5_witness :
  promises (snd (_handleOutgoingReject Sample.outgoing1 (Opaque "insufficient funds")
                   Sample.st_pending)) !! 0%nat
  = Some (Rejected (Opaque "insufficient funds")).
Proof.
  apply (proj1 C5_reject_and_cancel_pass_reason
           Sample.st_pending Sample.outgoing1 (Opaque "insufficient funds")
           {| resolve := 0; reject := 0 |} sample_pending_entry).
  reflexivity.
Defined.

(** C6.  An event whose transfer identifier has no entry in the correlation
    table is ignored, without effect and without exception, by each of the
    three handlers, provided the identifier is not the name of a property
    that the table, a plain object, inherits.  For such a name, [constructor]
    for one, the guard finds the inherited property and lets the event
    through, and the handler throws a [TypeError]. *)
Theorem C6_unknown_identifier_is_ignored :
  (forall (B : Base64) (C : IlpPacket) (st : Plugin) (transfer : OldTransferRecord),
      transfers st !! lpi1_id transfer = None ->
      inherits_property (lpi1_id transfer) = false ->
      (forall fulfillment_ ilp,
          _handleOutgoingFulfill transfer fulfillment_ ilp st = (Normal tt, st))
      /\ (forall reason, _handleOutgoingReject transfer reason st = (Normal tt, st))
      /\ (forall reason, _handleOutgoingCancel transfer reason st = (Normal tt, st)))
  /\ (forall (B : Base64) (C : IlpPacket) (st : Plugin) (transfer : OldTransferRecord),
      transfers st !! lpi1_id transfer = None ->
      inherits_property (lpi1_id transfer) = true ->
      (forall fulfillment_ ilp,
          exists e, _handleOutgoingFulfill transfer fulfillment_ ilp st = (Throw e, st))
      /\ (forall reason,
            _handleOutgoingReject transfer reason st
            = (Throw (TypeError "reject is not a function"), st))
      /\ (forall reason,
            _handleOutgoingCancel transfer reason st
            = (Throw (TypeError "reject is not a function"), st)))
  /\ (transfers (newPlugin Sample.old_usd) !! lpi1_id SampleExtra.outgoing_constructor
      = None
      /\ _handleOutgoingReject SampleExtra.outgoing_constructor (Opaque "late")
           (newPlugin Sample.old_usd)
         = (Throw (TypeError "reject is not a function"), newPlugin Sample.old_usd)
      /\ _handleOutgoingFulfill (B := TestCodec.base64) (C := TestCodec.ilpPacket)
           SampleExtra.outgoing_constructor "fulfillment-1" Sample.envelope_ok
           (newPlugin Sample.old_usd)
         = (Throw (TypeError "resolve is not a function"), newPlugin Sample.old_usd)).
Proof.
  split; [|split].
  - intros B C. apply handlers_ignore_unknown.
  - intros B C. apply handlers_throw_on_inherited.
  - split; [apply lookup_empty|]. split; reflexivity.
Qed.

(** ** Envelope round trip *)

Section RoundTrip.
Context `{B : Base64} `{C : IlpPacket} {L : CodecLaws B C}.

(** C7.  The routing envelope that [sendTransfer] encodes from a request's
    destination and data, decoded on the incoming-prepare path, gives back
    the destination address and the payload bytes unchanged, whether the
    envelope arrives as the Buffer itself or as its base64 text. *)
Theorem C7_envelope_roundtrip (transfer : Transfer) (incoming : OldTransferRecord) :
  lpi1_ilp incoming = IlpBuffer (outgoingEnvelope transfer)
  \/ lpi1_ilp incoming = IlpString (toString_base64 (outgoingEnvelope transfer)) ->
  exists view,
    incoming_view incoming = Normal view
    /\ destination view = destination transfer
    /\ data view = data transfer.
Proof.
  intros Hilp.
  assert (Hbuf : Buffer_from (lpi1_ilp incoming) = Normal (outgoingEnvelope transfer)).
  { destruct Hilp as [-> | ->]; cbn [Buffer_from]; [reflexivity|].
    now rewrite base64_roundtrip. }
  unfold incoming_view. rewrite Hbuf. unfold outgoingEnvelope.
  destruct (payment_roundtrip
              {| payment_account := destination transfer;
                 payment_amount := "0";
                 payment_data := toString_base64 (data transfer) |})
    as (q & -> & Haccount & Hdata).
  eexists. split; [reflexivity|].
  cbn [destination data]. cbn [payment_account payment_data] in Haccount, Hdata.
  split; [exact Haccount|].
  rewrite Hdata. apply base64_roundtrip.
Qed.

End RoundTrip.

Lemma C7_witness :
  exists view,
    incoming_view (B := TestCodec.base64) (C := TestCodec.ilpPacket) Sample.incoming_alice
      = Normal view
    /\ destination view = "g.usd.connector1.alice"
    /\ data view = [x68; x69].
Proof.
  apply (C7_envelope_roundtrip (L := TestCodecFacts.laws)
           Sample.request_alice Sample.incoming_alice).
  left. reflexivity.
Defined.

(** ** Handler registration *)

(** C8.  [registerTransferHandler] fails with the already-registered error
    whenever a handler is registered; it fails with the invalid-fields error
    whenever no handler is registered and the argument is not a function.
    [deregisterTransferHandler] always clears the slot and is idempotent, and
    after it a registration of a function succeeds. *)
Theorem C8_handler_registration :
  (forall (st : Plugin) (handler : HandlerArgument),
      registered st = true ->
      registerTransferHandler handler st =
        (Throw (TransferHandlerAlreadyRegisteredError "requestHandler is already registered"),
         st))
  /\ (forall (st : Plugin) (typeof : string),
      registered st = false ->
      registerTransferHandler (ArgNotFunction typeof) st =
        (Throw (InvalidFieldsError "requestHandler must be a function"), st))
  /\ (forall st : Plugin,
      deregisterTransferHandler st = (Normal tt, with_transferHandler SlotNull st)
      /\ registered (snd (deregisterTransferHandler st)) = false
      /\ deregisterTransferHandler (snd (deregisterTransferHandler st))
         = deregisterTransferHandler st)
  /\ (forall (st : Plugin) (f : TransferHandler),
      registerTransferHandler (ArgFunction f) (snd (deregisterTransferHandler st))
      = (Normal tt, with_transferHandler (SlotFunction f) st)).
Proof.
  repeat split.
  - intros st handler Hreg. unfold registerTransferHandler. now rewrite Hreg.
  - intros st typeof Hreg. unfold registerTransferHandler. now rewrite Hreg.
Qed.

Lemma C8_witness :
  registerTransferHandler (ArgFunction Sample.handler_throwing) Sample.st_registered =
    (Throw (TransferHandlerAlreadyRegisteredError "requestHandler is already registered"),
     Sample.st_registered).
Proof.
  apply (proj1 C8_handler_registration Sample.st_registered
           (ArgFunction Sample.handler_throwing)).
  reflexivity.
Defined.

(** With a handler registered, an argument that is not a function is
    refused with the already-registered error, not the invalid-fields one. *)
Lemma C8_counterexample :
  fst (registerTransferHandler (ArgNotFunction "string") Sample.st_registered)
  = Throw (TransferHandlerAlreadyRegisteredError "requestHandler is already registered")
  /\ fst (registerTransferHandler (ArgNotFunction "string") Sample.st_registered)
     <> Throw (InvalidFieldsError "requestHandler must be a function").
Proof. split; [reflexivity | discriminate]. Qed.

(** ** Incoming transfers *)

Section Incoming.
Context `{B : Base64} `{C : IlpPacket}.

Lemma process_incoming_fails (lpi1Transfer : OldTransferRecord)
    (view : Transfer) (st : Plugin) :
  processing_fails st view ->
  exists e,
    process_incoming lpi1Transfer view st = (PipelineRejected e, st)
    /\ catch_report e = Normal tt.
Proof.
  unfold processing_fails, process_incoming.
  destruct (_transferHandler st) as [| |handler]; eauto.
  intros [e [[-> | ->] Hreport]]; eauto.
Qed.

(** C9.  For an incoming-prepare event whose envelope decodes, when no
    transfer handler is registered, or the handler throws, or its promise
    rejects, with a value that the [catch] callback can report, the adapter
    submits a rejection of that transfer to the wrapped plugin with an empty
    reason, and that is its only call on the wrapped plugin:
    [fulfillCondition] is not invoked. *)
Theorem C9_failed_processing_submits_rejection
    (st : Plugin) (lpi1Transfer : OldTransferRecord) (view : Transfer) :
  incoming_view lpi1Transfer = Normal view ->
  processing_fails st view ->
  _handleIncomingPrepare lpi1Transfer st
    = (Normal tt, call_oldPlugin (Call_rejectIncomingTransfer lpi1Transfer []) st)
  /\ calls (oldPlugin (snd (_handleIncomingPrepare lpi1Transfer st)))
     = calls (oldPlugin st) ++ [Call_rejectIncomingTransfer lpi1Transfer []]
  /\ (forall fulfillment_ ilp,
        Call_fulfillCondition (lpi1_id lpi1Transfer) fulfillment_ ilp
          ∈ calls (oldPlugin (snd (_handleIncomingPrepare lpi1Transfer st))) ->
        Call_fulfillCondition (lpi1_id lpi1Transfer) fulfillment_ ilp
          ∈ calls (oldPlugin st)).
Proof.
  intros Hview Hfails.
  destruct (process_incoming_fails lpi1Transfer view st Hfails) as (e & He & Hreport).
  assert (Heq : _handleIncomingPrepare lpi1Transfer st
                = (Normal tt, call_oldPlugin (Call_rejectIncomingTransfer lpi1Transfer []) st)).
  { unfold _handleIncomingPrepare. now rewrite Hview, He, Hreport. }
  rewrite Heq. cbn [snd call_oldPlugin oldPlugin calls].
  split; [reflexivity|]. split; [reflexivity|].
  intros f ilp Hin. apply elem_of_app in Hin as [Hin|Hin]; [exact Hin|].
  apply list_elem_of_singleton in Hin. discriminate Hin.
Qed.

End Incoming.

Lemma C9_witness :
  calls (oldPlugin
           (snd (_handleIncomingPrepare (B := TestCodec.base64) (C := TestCodec.ilpPacket)
                   Sample.incoming_alice SampleExtra.st_registered_failing)))
  = [Call_rejectIncomingTransfer Sample.incoming_alice []].
Proof.
  refine (proj1 (proj2 (C9_failed_processing_submits_rejection
                          (B := TestCodec.base64) (C := TestCodec.ilpPacket)
                          SampleExtra.st_registered_failing Sample.incoming_alice
                          (mkTransfer "10" "g.usd.connector1.alice" [x68; x69]
                             "condition-1" "2017-12-24T00:00:00.000Z" "" None)
                          _ _))).
  - reflexivity.
  - exists (Error "handler failed"). split; [left|]; reflexivity.
Defined.

(** An incoming transfer whose [ilp] field is absent, or does not hold an
    envelope, makes the event handler throw before the pipeline starts: no
    rejection is submitted although no handler is registered. *)
Lemma C9_counterexample :
  _transferHandler (newPlugin Sample.old_usd) = SlotUndefined
  /\ _handleIncomingPrepare (B := TestCodec.base64) (C := TestCodec.ilpPacket)
       Sample.incoming_without_ilp (newPlugin Sample.old_usd)
     = (Throw (TypeError "The first argument must be of type string or an instance of Buffer"),
        newPlugin Sample.old_usd)
  /\ _handleIncomingPrepare (B := TestCodec.base64) (C := TestCodec.ilpPacket)
       Sample.incoming_empty_ilp (newPlugin Sample.old_usd)
     = (Throw (Error "Packet has incorrect type"), newPlugin Sample.old_usd)
  /\ calls (oldPlugin (newPlugin Sample.old_usd)) = [].
Proof. repeat split. Qed.

(** ** The correlation table only grows *)

(** The branch of a completion handler that finds no entry: the event is
    ignored, or the handler throws; the adapter's state is the same. *)
Ltac no_entry_case :=
  destruct (inherits_property _);
  [try destruct (deserializeIlpFulfillment _)|]; reflexivity.

Section Table.
Context `{B : Base64} `{C : IlpPacket}.

Lemma handleIncomingPrepare_frame (lpi1Transfer : OldTransferRecord) (st : Plugin) :
  transfers (snd (_handleIncomingPrepare lpi1Transfer st)) = transfers st
  /\ promises (snd (_handleIncomingPrepare lpi1Transfer st)) = promises st
  /\ trace (snd (_handleIncomingPrepare lpi1Transfer st)) = trace st.
Proof.
  unfold _handleIncomingPrepare.
  destruct (incoming_view lpi1Transfer) as [view|e]; [|auto].
  unfold process_incoming.
  destruct (_transferHandler st) as [| |handler]; auto.
  destruct (handler view) as [e|e|r|e|]; cbn;
    try destruct (fulfillCondition_throws _ _ _ _); cbn;
    try destruct (catch_report _); auto.
Qed.

(** Every operation other than [sendTransfer] leaves the table as it is. *)
Lemma step_transfers (op : Operation) (st : Plugin) :
  is_sendTransfer op = false -> transfers (step op st) = transfers st.
Proof.
  destruct op as [id transfer|handler| |method|transfer f ilp|transfer reason
                 |transfer reason|lpi1Transfer]; cbn [step is_sendTransfer]; intros Hop.
  - discriminate Hop.
  - unfold registerTransferHandler.
    destruct (registered st); [reflexivity|]. destruct handler; reflexivity.
  - reflexivity.
  - reflexivity.
  - unfold _handleOutgoingFulfill.
    destruct (transfers st !! lpi1_id transfer) as [entry|].
    + destruct (deserializeIlpFulfillment ilp) as [packet|e]; [|reflexivity].
      apply call_resolve_frame.
    + no_entry_case.
  - unfold _handleOutgoingReject.
    destruct (transfers st !! lpi1_id transfer) as [entry|].
    + apply call_reject_frame.
    + no_entry_case.
  - unfold _handleOutgoingCancel.
    destruct (transfers st !! lpi1_id transfer) as [entry|].
    + apply call_reject_frame.
    + no_entry_case.
  - apply handleIncomingPrepare_frame.
Qed.




(** The effect of a terminal event that finds [entry]: one continuation is
    called on the entry's promise. *)
Lemma terminal_event_effect (id : string) (op : Operation) (st : Plugin)
    (entry : PendingTransfer) :
  transfers st !! id = Some entry ->
  resolve entry = reject entry ->
  is_terminal_event id op ->
  exists ev o,
    o <> Pending
    /\ step op st = settle (resolve entry) o (record_event ev st).
Proof.
  intros Hentry Hsame Hterm.
  destruct op as [| | | |transfer f ilp|transfer reason|transfer reason|];
    cbn [is_terminal_event] in Hterm; try contradiction; cbn [step].
  - destruct Hterm as [<- [packet Hilp]].
    unfold _handleOutgoingFulfill. rewrite Hentry, Hilp. cbn [snd].
    unfold call_resolve. eexists _, _. split; [|reflexivity]. discriminate.
  - subst id. unfold _handleOutgoingReject. rewrite Hentry. cbn [snd].
    unfold call_reject. rewrite <- Hsame.
    eexists _, _. split; [|reflexivity]. discriminate.
  - subst id. unfold _handleOutgoingCancel. rewrite Hentry. cbn [snd].
    unfold call_reject. rewrite <- Hsame.
    eexists _, _. split; [|reflexivity]. discriminate.
Qed.



Lemma step_entries_paired (op : Operation) (st : Plugin) :
  entries_paired st -> entries_paired (step op st).
Proof.
  intros Hwf id entry. destruct (is_sendTransfer op) eqn:Hsend.
  - destruct op as [id' transfer| | | | | | |]; try discriminate Hsend.
    cbn [step]. rewrite sendTransfer_transfers.
    destruct (falsy _); [apply Hwf|].
    rewrite lookup_insert. case_decide.
    + intros [= <-]. reflexivity.
    + apply Hwf.
  - rewrite step_transfers by exact Hsend. apply Hwf.
Qed.

(** In every state the adapter reaches, the continuations of an entry
    belong to one promise. *)
Lemma run_entries_paired (ops : list Operation) (st : Plugin) :
  entries_paired st -> entries_paired (run ops st).
Proof.
  revert st. induction ops as [|op ops IH]; intros st Hwf; cbn [run].
  - exact Hwf.
  - apply IH, step_entries_paired, Hwf.
Qed.

Lemma newPlugin_entries_paired (old : OldPlugin) : entries_paired (newPlugin old).
Proof. intros id entry Hentry. cbn in Hentry. now rewrite lookup_empty in Hentry. Qed.


End Table.


(** ** Scenarios *)

Module Scenarios.
Import TestCodec Sample.

(** A request of the documented shape followed by its fulfillment event: the
    entry is found and [resolve] is called, but the promise was rejected
    when the request was sent and stays so. *)
Example documented_request_then_fulfillment :
  let st := run [Op_sendTransfer id1 request_alice;
                 Ev_outgoing_fulfill outgoing1 "fulfillment-1" envelope_ok]
              (newPlugin old_usd) in
  promises st = [Rejected (TypeError "transfer.sendTransfer is not a function")]
  /\ trace st = [CalledResolve 0 (mkFulfillmentResult "fulfillment-1" [x6f; x6b])]
  /\ calls (oldPlugin st) = [].
Proof. cbv zeta. repeat split; vm_compute; reflexivity. Qed.

(** A pending transfer that is fulfilled, then rejected: both continuations
    are called, the first settlement stands, the entry is still there. *)
Example fulfillment_then_rejection :
  let st := run [Ev_outgoing_fulfill outgoing1 "fulfillment-1" envelope_ok;
                 Ev_outgoing_reject outgoing1 (Opaque "too late")]
              st_pending in
  promises st = [Fulfilled (mkFulfillmentResult "fulfillment-1" [x6f; x6b])]
  /\ trace st =
       trace st_pending
       ++ [CalledResolve 0 (mkFulfillmentResult "fulfillment-1" [x6f; x6b]);
           CalledReject 0 (Opaque "too late")]
  /\ transfers st !! id1 = Some {| resolve := 0; reject := 0 |}.
Proof. cbv zeta. repeat split; vm_compute; reflexivity. Qed.

(** An incoming transfer with a handler that accepts it: the wrapped plugin
    receives [fulfillCondition] with an envelope that decodes back to the
    handler's data. *)
Example incoming_with_accepting_handler :
  exists ilp,
    calls (oldPlugin (snd (_handleIncomingPrepare incoming_alice st_registered)))
    = [Call_fulfillCondition id2 "fulfillment-1" ilp]
    /\ deserializeIlpFulfillment (IlpBuffer ilp)
       = Normal (mkIlpFulfillment (toString_base64 [x68; x69])).
Proof. eexists. split; vm_compute; reflexivity. Qed.

Example incoming_with_throwing_handler :
  let st := snd (registerTransferHandler (ArgFunction handler_throwing) (newPlugin old_usd)) in
  calls (oldPlugin (snd (_handleIncomingPrepare incoming_alice st)))
  = [Call_rejectIncomingTransfer incoming_alice []].
Proof. vm_compute. reflexivity. Qed.

(** A handler that throws [null]: the [catch] callback fails on [err.stack]
    and the wrapped plugin hears nothing of the transfer. *)
Example incoming_with_handler_throwing_null :
  calls (oldPlugin (snd (_handleIncomingPrepare incoming_alice
                           SampleExtra.st_registered_null)))
  = [].
Proof. vm_compute. reflexivity. Qed.

(** A handler whose promise never settles: nothing is submitted. *)
Example incoming_with_silent_handler :
  calls (oldPlugin (snd (_handleIncomingPrepare incoming_alice
                           SampleExtra.st_registered_silent)))
  = [].
Proof. vm_compute. reflexivity. Qed.

Example incoming_with_rejecting_handler :
  let st := snd (registerTransferHandler (ArgFunction handler_rejecting) (newPlugin old_usd)) in
  calls (oldPlugin (snd (_handleIncomingPrepare incoming_alice st)))
  = [Call_rejectIncomingTransfer incoming_alice []].
Proof. vm_compute. reflexivity. Qed.

(** Register, register again, deregister, register. *)
Example registration_cycle :
  let st1 := snd (registerTransferHandler (ArgFunction handler_accept) (newPlugin old_usd)) in
  let second := registerTransferHandler (ArgFunction handler_throwing) st1 in
  let st2 := snd (deregisterTransferHandler (snd second)) in
  fst second
  = Throw (TransferHandlerAlreadyRegisteredError "requestHandler is already registered")
  /\ fst (registerTransferHandler (ArgFunction handler_throwing) st2) = Normal tt.
Proof. split; reflexivity. Qed.

End Scenarios.

(** * Further properties *)

(** ** Prefix test and delivery address *)

Lemma append_nil_r (s : string) : s +:+ "" = s.
Proof.
  induction s as [|c s IH]; [reflexivity|].
  rewrite JsStringFacts.append_cons. f_equal. exact IH.
Qed.

Lemma contains_app_sep (sep : ascii) (a r : string) :
  JsString.contains sep (a +:+ String sep r) = true.
Proof.
  induction a as [|c a IH].
  - rewrite JsStringFacts.append_nil_l. cbn. now rewrite Ascii.eqb_refl.
  - rewrite JsStringFacts.append_cons. cbn. rewrite IH. apply orb_true_r.
Qed.

(** The address computed for a destination under the prefix. *)
Lemma localDeliveryAddress_local_eq (info : PluginInfo) (suffix : string) :
  localDeliveryAddress info (prefix info +:+ suffix)
  = Some (JsString.concat_value (prefix info)
            (JsString.split "."%char suffix !! 0%nat)).
Proof.
  unfold localDeliveryAddress.
  replace (startsWith (prefix info) (prefix info +:+ suffix)) with true
    by (symmetry; apply JsStringFacts.startsWith_spec; eauto).
  now rewrite JsStringFacts.substring1_app.
Qed.

Lemma startsWith_empty (s : string) : startsWith "" s = true.
Proof. apply JsStringFacts.startsWith_spec. now exists s. Qed.

(** X1.  [startsWith(prefix, subject)] holds exactly when [subject] begins with
    [prefix]: always for the empty prefix, never for a prefix longer than
    the subject. *)
Theorem X1_startsWith_tests_prefix :
  (forall p s : string, startsWith p s = true <-> exists suffix, s = p +:+ suffix)
  /\ (forall s : string, startsWith "" s = true)
  /\ (forall p s : string,
        String.length s < String.length p -> startsWith p s = false).
Proof.
  split; [exact JsStringFacts.startsWith_spec|]. split.
  - exact startsWith_empty.
  - intros p s Hlen. destruct (startsWith p s) eqn:Hsw; [|reflexivity].
    apply JsStringFacts.startsWith_spec in Hsw as [suffix ->].
    rewrite JsStringFacts.length_app_string in Hlen. lia.
Qed.

Lemma falsy_iff_no_valid_destination (info : PluginInfo) (destination : string) :
  falsy (localDeliveryAddress info destination) = true
  <-> no_valid_destination info destination.
Proof.
  unfold no_valid_destination.
  destruct (startsWith (prefix info) destination) eqn:Hsw.
  - pose proof Hsw as Hpre.
    apply JsStringFacts.startsWith_spec in Hpre as [suffix ->].
    destruct (localDeliveryAddress_under_prefix info suffix)
      as (seg & rest & -> & Hseg & Hrest & Hto).
    rewrite Hto. cbn [falsy]. unfold JsString.strict_eq. rewrite String.eqb_eq.
    split.
    + intros Hempty. left.
      destruct (prefix info) as [|c p]; [|discriminate Hempty].
      rewrite JsStringFacts.append_nil_l in Hempty. subst seg.
      rewrite !JsStringFacts.append_nil_l. split; [reflexivity | exact Hrest].
    + intros [[Hp Hdest] | [Hfalse _]]; [|discriminate Hfalse].
      rewrite Hp in *. rewrite !JsStringFacts.append_nil_l in *.
      destruct seg as [|c seg]; [reflexivity|].
      exfalso. destruct Hdest as [Hdest | [r Hdest]].
      * rewrite JsStringFacts.append_cons in Hdest. discriminate Hdest.
      * rewrite JsStringFacts.append_cons in Hdest. injection Hdest as -> _.
        cbn in Hseg. discriminate Hseg.
  - rewrite (localDeliveryAddress_outside_prefix info destination Hsw).
    split.
    + intros Hf. right. split; [reflexivity|].
      destruct (connectors info !! 0%nat) as [c|]; [|now left].
      right. cbn in Hf. unfold JsString.strict_eq in Hf.
      apply String.eqb_eq in Hf. now subst c.
    + intros [[Hp _] | [_ [-> | ->]]]; [|reflexivity|reflexivity].
      exfalso. rewrite Hp, startsWith_empty in Hsw. discriminate Hsw.
Qed.

Section DeliveryClaims.
Context `{B : Base64} `{C : IlpPacket}.

(** X2.  [sendTransfer] fails with the "No valid destination" error exactly when
    the ledger prefix is empty and the destination is empty or begins with a
    dot, or the destination is outside the prefix and the first connector is
    missing or empty; in every other case it returns a new promise.  In
    particular a destination under a non-empty prefix is always accepted. *)
Theorem X2_no_valid_destination_exactly
    (id : string) (transfer : Transfer) (st : Plugin) :
  (fst (sendTransfer id transfer st)
   = SendThrows (Error "No valid destination: no connector and destination is not local")
   <-> no_valid_destination (getInfo st) (destination transfer))
  /\ (~ no_valid_destination (getInfo st) (destination transfer) ->
      fst (sendTransfer id transfer st) = SendPromise (length (promises st)))
  /\ (prefix (getInfo st) <> "" ->
      startsWith (prefix (getInfo st)) (destination transfer) = true ->
      fst (sendTransfer id transfer st) = SendPromise (length (promises st))).
Proof.
  pose proof (falsy_iff_no_valid_destination (getInfo st) (destination transfer)) as Hiff.
  assert (Hok : ~ no_valid_destination (getInfo st) (destination transfer) ->
                fst (sendTransfer id transfer st) = SendPromise (length (promises st))).
  { intros Hnot. unfold sendTransfer.
    destruct (falsy _); [|reflexivity]. exfalso. apply Hnot, Hiff. reflexivity. }
  split; [|split].
  - split.
    + intros Hres. apply Hiff. unfold sendTransfer in Hres.
      destruct (falsy _); [reflexivity | discriminate Hres].
    + intros Hno. apply Hiff in Hno. unfold sendTransfer. now rewrite Hno.
  - exact Hok.
  - intros Hprefix Hsw. apply Hok.
    intros [[Hp _] | [Hfalse _]]; congruence.
Qed.

End DeliveryClaims.

(** X3.  The local delivery address is a fixed point: a destination under the
    prefix resolves to an address that resolves to itself. *)
Theorem X3_local_delivery_address_is_fixed_point
    (info : PluginInfo) (destination to_ : string) :
  startsWith (prefix info) destination = true ->
  localDeliveryAddress info destination = Some to_ ->
  localDeliveryAddress info to_ = Some to_.
Proof.
  intros Hsw Hto.
  apply JsStringFacts.startsWith_spec in Hsw as [suffix ->].
  destruct (localDeliveryAddress_under_prefix info suffix)
    as (seg & rest & _ & Hseg & _ & Hto').
  rewrite Hto' in Hto. injection Hto as <-.
  destruct (localDeliveryAddress_under_prefix info seg)
    as (seg' & rest' & Hsplit & _ & Hrest' & ->).
  destruct Hrest' as [-> | [r ->]].
  - rewrite append_nil_r in Hsplit. now subst seg'.
  - exfalso. rewrite Hsplit, contains_app_sep in Hseg. discriminate Hseg.
Qed.

Lemma X3_witness :
  localDeliveryAddress Sample.info_usd "g.usd.connector1" = Some "g.usd.connector1".
Proof.
  apply (X3_local_delivery_address_is_fixed_point
           Sample.info_usd "g.usd.connector1.alice" "g.usd.connector1");
    reflexivity.
Defined.

(** X4.  A destination that is the ledger prefix itself, or whose first segment
    after the prefix is empty, is delivered to the bare prefix. *)
Theorem X4_empty_segment_delivers_to_prefix (info : PluginInfo) :
  localDeliveryAddress info (prefix info) = Some (prefix info)
  /\ (forall rest : string,
        localDeliveryAddress info (prefix info +:+ String "." rest)
        = Some (prefix info)).
Proof.
  split.
  - replace (localDeliveryAddress info (prefix info))
      with (localDeliveryAddress info (prefix info +:+ ""))
      by now rewrite append_nil_r.
    rewrite localDeliveryAddress_local_eq. cbn.
    now rewrite append_nil_r.
  - intros rest. rewrite localDeliveryAddress_local_eq. cbn.
    now rewrite append_nil_r.
Qed.

(** ** The whole request through the old-interface record *)

Section RequestRoundTrip.
Context `{B : Base64} `{C : IlpPacket} {L : CodecLaws B C}.

(** X5.  The record that [sendTransfer] builds from a request, handed to
    [_handleIncomingPrepare] of a receiving adapter, yields a transfer view
    with the request's amount, destination, data, condition, expiry and
    custom fields. *)
Theorem X5_request_survives_old_interface
    (id to_ prefix_ : string) (transfer : Transfer) :
  exists view,
    incoming_view (build_lpi1Transfer id to_ prefix_ transfer) = Normal view
    /\ amount view = amount transfer
    /\ destination view = destination transfer
    /\ data view = data transfer
    /\ condition view = condition transfer
    /\ expiry view = expiry transfer
    /\ custom view = custom transfer.
Proof.
  unfold incoming_view, build_lpi1Transfer, outgoingEnvelope.
  cbn [lpi1_ilp Buffer_from].
  destruct (payment_roundtrip
              {| payment_account := destination transfer;
                 payment_amount := "0";
                 payment_data := toString_base64 (data transfer) |})
    as (q & -> & Haccount & Hdata).
  eexists. split; [reflexivity|].
  cbn in *. rewrite Haccount, Hdata, base64_roundtrip. auto 7.
Qed.

End RequestRoundTrip.

Lemma X5_witness :
  exists view,
    incoming_view (B := TestCodec.base64) (C := TestCodec.ilpPacket)
      (build_lpi1Transfer (B := TestCodec.base64) (C := TestCodec.ilpPacket)
         Sample.id1 "g.usd.connector1" "g.usd." Sample.request_bob) = Normal view
    /\ amount view = "25"
    /\ destination view = "g.eur.bob"
    /\ data view = [x62; x6f; x62]
    /\ condition view = "condition-2"
    /\ expiry view = "2017-12-24T00:00:00.000Z"
    /\ custom view = "".
Proof.
  exact (X5_request_survives_old_interface (L := TestCodecFacts.laws)
           Sample.id1 "g.usd.connector1" "g.usd." Sample.request_bob).
Defined.

(** ** Promises along the operations *)

Lemma settle_after_record_event (p : nat) (o : PromiseState) (ev : TraceEvent)
    (st : Plugin) :
  promises (settle p o (record_event ev st)) = promises (settle p o st).
Proof.
  unfold settle. cbn [record_event promises].
  destruct (promises st !! p) as [[| |]|]; reflexivity.
Qed.

Section PromiseFacts.
Context `{B : Base64} `{C : IlpPacket}.

(** The promise store after [sendTransfer]: as before when the request is
    refused, one promise longer when it is accepted, and the new promise is
    pending or rejected. *)
Lemma sendTransfer_promises (id : string) (transfer : Transfer) (st : Plugin) :
  if falsy (localDeliveryAddress (getInfo st) (destination transfer))
  then promises (snd (sendTransfer id transfer st)) = promises st
  else exists final,
         promises (snd (sendTransfer id transfer st)) = promises st ++ [final]
         /\ forall value, final <> Fulfilled value.
Proof.
  unfold sendTransfer. destruct (falsy _); [reflexivity|]. cbn [snd].
  unfold executor_send.
  destruct (sendTransfer_property transfer) as [method|].
  - destruct (method _) as [e| | |e].
    + eexists. split;
        [rewrite settle_after_record_event; now apply settle_fresh | discriminate].
    + eexists. split;
        [rewrite settle_after_record_event; now apply settle_fresh | discriminate].
    + exists Pending. split; [reflexivity | discriminate].
    + eexists. split;
        [unfold call_reject; rewrite !settle_after_record_event;
         now apply settle_fresh | discriminate].
  - eexists. split; [now apply settle_fresh | discriminate].
Qed.

(** An operation other than [sendTransfer] leaves the promise store as it
    is, or settles one promise. *)
Lemma step_promises_nonsend (op : Operation) (st : Plugin) :
  is_sendTransfer op = false ->
  promises (step op st) = promises st
  \/ exists p o, o <> Pending /\ promises (step op st) = promises (settle p o st).
Proof.
  destruct op as [id transfer|handler| |method|transfer f ilp|transfer reason
                 |transfer reason|lpi1Transfer]; cbn [step is_sendTransfer]; intros Hop.
  - discriminate Hop.
  - left. unfold registerTransferHandler.
    destruct (registered st); [reflexivity|]. destruct handler; reflexivity.
  - left. reflexivity.
  - left. reflexivity.
  - unfold _handleOutgoingFulfill.
    destruct (transfers st !! lpi1_id transfer) as [entry|]; [|left; no_entry_case].
    destruct (deserializeIlpFulfillment ilp) as [packet|e]; [|now left].
    right. eexists _, _. split; [|apply settle_after_record_event]. discriminate.
  - unfold _handleOutgoingReject.
    destruct (transfers st !! lpi1_id transfer) as [entry|]; [|left; no_entry_case].
    right. eexists _, _. split; [|apply settle_after_record_event]. discriminate.
  - unfold _handleOutgoingCancel.
    destruct (transfers st !! lpi1_id transfer) as [entry|]; [|left; no_entry_case].
    right. eexists _, _. split; [|apply settle_after_record_event]. discriminate.
  - left. apply handleIncomingPrepare_frame.
Qed.

Lemma step_promises_length (op : Operation) (st : Plugin) :
  length (promises st) <= length (promises (step op st)).
Proof.
  destruct (is_sendTransfer op) eqn:Hop.
  - destruct op as [id transfer| | | | | | |]; try discriminate Hop. cbn [step].
    pose proof (sendTransfer_promises id transfer st) as H.
    destruct (falsy _).
    + now rewrite H.
    + destruct H as (final & -> & _). rewrite length_app. lia.
  - destruct (step_promises_nonsend op st Hop) as [-> | (p & o & _ & ->)];
      [lia | now rewrite settle_length].
Qed.

(** No operation changes a promise that is settled. *)
Lemma step_keeps_settled (op : Operation) (st : Plugin) (p : nat) (s : PromiseState) :
  promises st !! p = Some s -> s <> Pending ->
  promises (step op st) !! p = Some s.
Proof.
  intros Hp Hs. destruct (is_sendTransfer op) eqn:Hop.
  - destruct op as [id transfer| | | | | | |]; try discriminate Hop. cbn [step].
    pose proof (sendTransfer_promises id transfer st) as H.
    destruct (falsy _).
    + now rewrite H.
    + destruct H as (final & -> & _). now apply lookup_app_l_Some.
  - destruct (step_promises_nonsend op st Hop) as [-> | (q & o & _ & ->)];
      [exact Hp | now apply settle_settled].
Qed.

Lemma run_keeps_settled (ops : list Operation) (st : Plugin) (p : nat)
    (s : PromiseState) :
  promises st !! p = Some s -> s <> Pending ->
  promises (run ops st) !! p = Some s.
Proof.
  revert st. induction ops as [|op ops IH]; intros st Hp Hs; cbn [run].
  - exact Hp.
  - apply IH; [|exact Hs]. now apply step_keeps_settled.
Qed.

(** X6.  [sendTransfer] touches no promise that exists: an accepted request adds
    exactly one promise, which is pending or rejected and never fulfilled; a
    refused request adds none.  The handler slot is left as it is. *)
Theorem X6_sendTransfer_only_adds_a_promise
    (id : string) (transfer : Transfer) (st : Plugin) :
  (forall q s, promises st !! q = Some s ->
               promises (snd (sendTransfer id transfer st)) !! q = Some s)
  /\ length (promises (snd (sendTransfer id transfer st)))
     = (length (promises st)
        + if falsy (localDeliveryAddress (getInfo st) (destination transfer))
          then 0 else 1)%nat
  /\ (forall value,
        promises (snd (sendTransfer id transfer st)) !! length (promises st)
        <> Some (Fulfilled value))
  /\ _transferHandler (snd (sendTransfer id transfer st)) = _transferHandler st.
Proof.
  pose proof (sendTransfer_promises id transfer st) as H.
  split; [|split; [|split]].
  - intros q s Hq. destruct (falsy _).
    + now rewrite H.
    + destruct H as (final & -> & _). now apply lookup_app_l_Some.
  - destruct (falsy _).
    + rewrite H. lia.
    + destruct H as (final & -> & _). rewrite length_app. cbn. lia.
  - intros value. destruct (falsy _).
    + rewrite H. rewrite lookup_ge_None_2 by lia. discriminate.
    + destruct H as (final & -> & Hfinal).
      rewrite lookup_app_r by lia. rewrite Nat.sub_diag. cbn.
      intros [= Heq]. exact (Hfinal value Heq).
  - apply sendTransfer_transferHandler.
Qed.

(** X7.  Settlement is final.  Along every run of operations a promise that is
    fulfilled or rejected keeps its state; so the first terminal event of a
    pending transfer decides its outcome for good, whatever events or calls
    follow. *)
Theorem X7_settlement_is_final :
  (forall (ops : list Operation) (st : Plugin) (p : nat) (s : PromiseState),
      promises st !! p = Some s -> s <> Pending ->
      promises (run ops st) !! p = Some s)
  /\ (forall (st : Plugin) (id : string) (entry : PendingTransfer) (first : Operation),
      transfers st !! id = Some entry ->
      resolve entry = reject entry ->
      promises st !! resolve entry = Some Pending ->
      is_terminal_event id first ->
      exists outcome,
        outcome <> Pending
        /\ forall ops : list Operation,
             promises (run ops (step first st)) !! resolve entry = Some outcome).
Proof.
  split; [exact run_keeps_settled|].
  intros st id entry first Hentry Hsame Hpending Hfirst.
  destruct (terminal_event_effect id first st entry Hentry Hsame Hfirst)
    as (ev & o & Ho & Hstep).
  exists o. split; [exact Ho|]. intros ops.
  apply run_keeps_settled; [|exact Ho].
  rewrite Hstep. now apply settle_pending.
Qed.

End PromiseFacts.

Lemma X7_witness :
  promises
    (run (B := TestCodec.base64) (C := TestCodec.ilpPacket)
       [Ev_outgoing_fulfill Sample.outgoing1 "fulfillment-2" Sample.envelope_ok;
        Ev_outgoing_cancel Sample.outgoing1 (Opaque "expired")]
       (step (B := TestCodec.base64) (C := TestCodec.ilpPacket)
          (Ev_outgoing_reject Sample.outgoing1 (Opaque "insufficient funds"))
          Sample.st_pending)) !! 0%nat
  = Some (Rejected (Opaque "insufficient funds")).
Proof.
  apply (proj1 (X7_settlement_is_final
                  (B := TestCodec.base64) (C := TestCodec.ilpPacket))).
  - reflexivity.
  - discriminate.
Defined.

(** ** Invariants of the correlation table *)

Section TableInvariants.
Context `{B : Base64} `{C : IlpPacket}.

Lemma step_entries_valid_distinct (op : Operation) (st : Plugin) :
  entries_valid st /\ entries_distinct st ->
  entries_valid (step op st) /\ entries_distinct (step op st).
Proof.
  intros [Hvalid Hdistinct]. destruct (is_sendTransfer op) eqn:Hop.
  - destruct op as [id transfer| | | | | | |]; try discriminate Hop. cbn [step].
    pose proof (sendTransfer_promises id transfer st) as Hps.
    pose proof (sendTransfer_transfers id transfer st) as Htable.
    destruct (falsy _).
    + split.
      * intros k e. rewrite Htable, Hps. apply Hvalid.
      * intros k1 k2 e1 e2. rewrite Htable. apply Hdistinct.
    + destruct Hps as (final & Hps & _). split.
      * intros k e. rewrite Htable, Hps, length_app, lookup_insert.
        case_decide.
        -- intros [= <-]. cbn. lia.
        -- intros He. apply Hvalid in He. lia.
      * intros k1 k2 e1 e2. rewrite Htable, !lookup_insert.
        repeat case_decide; subst.
        -- reflexivity.
        -- intros [= <-] He2 Heq. cbn in Heq. apply Hvalid in He2. lia.
        -- intros He1 [= <-] Heq. cbn in Heq. apply Hvalid in He1. lia.
        -- apply Hdistinct.
  - pose proof (step_transfers op st Hop) as Htable.
    pose proof (step_promises_length op st) as Hlen. split.
    + intros k e. rewrite Htable. intros He. apply Hvalid in He. lia.
    + intros k1 k2 e1 e2. rewrite Htable. apply Hdistinct.
Qed.

Lemma run_entries_valid_distinct (ops : list Operation) (st : Plugin) :
  entries_valid st /\ entries_distinct st ->
  entries_valid (run ops st) /\ entries_distinct (run ops st).
Proof.
  revert st. induction ops as [|op ops IH]; intros st Hinv; cbn [run].
  - exact Hinv.
  - apply IH, step_entries_valid_distinct, Hinv.
Qed.

Lemma newPlugin_entries_valid_distinct (old : OldPlugin) :
  entries_valid (newPlugin old) /\ entries_distinct (newPlugin old).
Proof.
  split.
  - intros k e He. cbn in He. now rewrite lookup_empty in He.
  - intros k1 k2 e1 e2 He. cbn in He. now rewrite lookup_empty in He.
Qed.

(** X8.  In every state the adapter reaches from its construction, each entry of
    the correlation table holds the two continuations of one promise, that
    promise exists, and entries under different identifiers belong to
    different promises. *)
Theorem X8_table_entries_are_wellformed (old : OldPlugin) (ops : list Operation) :
  entries_paired (run ops (newPlugin old))
  /\ entries_valid (run ops (newPlugin old))
  /\ entries_distinct (run ops (newPlugin old)).
Proof.
  split.
  - apply run_entries_paired, newPlugin_entries_paired.
  - apply run_entries_valid_distinct, newPlugin_entries_valid_distinct.
Qed.

(** X9.  A completion event for one transfer settles at most the promise of that
    transfer: in every reachable state, every other promise, and so the
    promise of every entry under another identifier, is left as it is. *)
Theorem X9_completion_events_are_isolated
    (old : OldPlugin) (ops : list Operation) (id : string) (event : Operation) :
  let st := run ops (newPlugin old) in
  completion_event_for id event = true ->
  (forall entry q,
      transfers st !! id = Some entry -> q <> resolve entry ->
      promises (step event st) !! q = promises st !! q)
  /\ (forall other entry',
      other <> id -> transfers st !! other = Some entry' ->
      promises (step event st) !! resolve entry' = promises st !! resolve entry').
Proof.
  intros st Hevent.
  assert (Hpaired : entries_paired st)
    by apply run_entries_paired, newPlugin_entries_paired.
  destruct (run_entries_valid_distinct ops (newPlugin old)
              (newPlugin_entries_valid_distinct old)) as [_ Hdistinct].
  fold st in Hdistinct.
  assert (Hone : forall entry q,
             transfers st !! id = Some entry -> q <> resolve entry ->
             promises (step event st) !! q = promises st !! q).
  { intros entry q Hentry Hq.
    pose proof (Hpaired id entry Hentry) as Hsame.
    destruct event as [| | | |transfer f ilp|transfer reason|transfer reason|];
      cbn [completion_event_for] in Hevent; try discriminate Hevent;
      apply String.eqb_eq in Hevent; cbn [step].
    - unfold _handleOutgoingFulfill. rewrite Hevent, Hentry.
      destruct (deserializeIlpFulfillment ilp); [|reflexivity].
      cbn [snd]. unfold call_resolve. now rewrite settle_other.
    - unfold _handleOutgoingReject. rewrite Hevent, Hentry.
      cbn [snd]. unfold call_reject. rewrite settle_other; [reflexivity|congruence].
    - unfold _handleOutgoingCancel. rewrite Hevent, Hentry.
      cbn [snd]. unfold call_reject. rewrite settle_other; [reflexivity|congruence]. }
  split; [exact Hone|].
  intros other entry' Hne Hentry'.
  destruct (transfers st !! id) as [entry|] eqn:Hentry.
  - apply (Hone entry); [reflexivity|].
    intros Heq. apply Hne. exact (Hdistinct other id entry' entry Hentry' Hentry Heq).
  - destruct event as [| | | |transfer f ilp|transfer reason|transfer reason|];
      cbn [completion_event_for] in Hevent; try discriminate Hevent;
      apply String.eqb_eq in Hevent; cbn [step].
    + unfold _handleOutgoingFulfill. rewrite Hevent, Hentry. no_entry_case.
    + unfold _handleOutgoingReject. rewrite Hevent, Hentry. no_entry_case.
    + unfold _handleOutgoingCancel. rewrite Hevent, Hentry. no_entry_case.
Qed.

(** X10.  Which operation can change what.  Only [sendTransfer] (which reads
    [getInfo()]), incoming-prepare events and the pass-through methods call
    the wrapped plugin: registration, deregistration and the three
    completion events never do.  Only registration and deregistration write
    the handler slot; only [sendTransfer] and the three completion events
    create or settle a promise.  Along every run the calls already submitted
    to the wrapped plugin stay at the head of its log. *)
Theorem X10_footprint_of_operations :
  (forall (op : Operation) (st : Plugin),
      reaches_oldPlugin op = false -> oldPlugin (step op st) = oldPlugin st)
  /\ (forall (op : Operation) (st : Plugin),
      writes_transferHandler op = false ->
      _transferHandler (step op st) = _transferHandler st)
  /\ (forall (op : Operation) (st : Plugin),
      touches_promises op = false -> promises (step op st) = promises st)
  /\ (forall (ops : list Operation) (st : Plugin),
      calls (oldPlugin st) `prefix_of` calls (oldPlugin (run ops st))).
Proof.
  assert (Hold : forall (op : Operation) (st : Plugin),
             reaches_oldPlugin op = false -> oldPlugin (step op st) = oldPlugin st).
  { intros op st. 
    destruct op as [id transfer|handler| |method|transfer f ilp|transfer reason
                   |transfer reason|lpi1Transfer];
      cbn [step reaches_oldPlugin]; intros Hop; try discriminate Hop.
    - unfold registerTransferHandler.
      destruct (registered st); [reflexivity|]. destruct handler; reflexivity.
    - reflexivity.
    - unfold _handleOutgoingFulfill.
      destruct (transfers st !! lpi1_id transfer) as [entry|]; [|no_entry_case].
      destruct (deserializeIlpFulfillment ilp); [|reflexivity].
      apply call_resolve_frame.
    - unfold _handleOutgoingReject.
      destruct (transfers st !! lpi1_id transfer) as [entry|]; [|no_entry_case].
      apply call_reject_frame.
    - unfold _handleOutgoingCancel.
      destruct (transfers st !! lpi1_id transfer) as [entry|]; [|no_entry_case].
      apply call_reject_frame. }
  assert (Hstep : forall (op : Operation) (st : Plugin),
             calls (oldPlugin st) `prefix_of` calls (oldPlugin (step op st))).
  { intros op st. destruct (reaches_oldPlugin op) eqn:Hop.
    - destruct op as [id transfer| | |method| | | |lpi1Transfer];
        try discriminate Hop; cbn [step].
      + now rewrite sendTransfer_oldPlugin.
      + now apply prefix_app_r.
      + unfold _handleIncomingPrepare.
        destruct (incoming_view lpi1Transfer) as [view|e]; [|reflexivity].
        unfold process_incoming.
        destruct (_transferHandler st) as [| |handler];
          try (now apply prefix_app_r).
        destruct (handler view) as [e|e|r|e|]; cbn;
          try destruct (fulfillCondition_throws _ _ _ _); cbn;
          try destruct (catch_report _); cbn;
          rewrite <- ?app_assoc; try reflexivity; now apply prefix_app_r.
    - now rewrite Hold. }
  split; [exact Hold|]. split; [|split].
  - intros op st.
    destruct op as [id transfer|handler| |method|transfer f ilp|transfer reason
                   |transfer reason|lpi1Transfer];
      cbn [step writes_transferHandler]; intros Hop; try discriminate Hop.
    + apply sendTransfer_transferHandler.
    + reflexivity.
    + unfold _handleOutgoingFulfill.
      destruct (transfers st !! lpi1_id transfer) as [entry|]; [|no_entry_case].
      destruct (deserializeIlpFulfillment ilp); [|reflexivity].
      apply call_resolve_frame.
    + unfold _handleOutgoingReject.
      destruct (transfers st !! lpi1_id transfer) as [entry|]; [|no_entry_case].
      apply call_reject_frame.
    + unfold _handleOutgoingCancel.
      destruct (transfers st !! lpi1_id transfer) as [entry|]; [|no_entry_case].
      apply call_reject_frame.
    + unfold _handleIncomingPrepare.
      destruct (incoming_view lpi1Transfer) as [view|e]; [|reflexivity].
      unfold process_incoming.
      destruct (_transferHandler st) as [| |handler] eqn:Hslot;
        try (cbn; exact Hslot).
      destruct (handler view) as [e|e|r|e|]; cbn;
        try destruct (fulfillCondition_throws _ _ _ _); cbn;
        try destruct (catch_report _); cbn; exact Hslot.
  - intros op st.
    destruct op as [id transfer|handler| |method|transfer f ilp|transfer reason
                   |transfer reason|lpi1Transfer];
      cbn [step touches_promises]; intros Hop; try discriminate Hop.
    + unfold registerTransferHandler.
      destruct (registered st); [reflexivity|]. destruct handler; reflexivity.
    + reflexivity.
    + reflexivity.
    + apply handleIncomingPrepare_frame.
  - intros ops. induction ops as [|op ops IH]; intros st; cbn [run].
    + reflexivity.
    + transitivity (calls (oldPlugin (step op st))); [apply Hstep | apply IH].
Qed.

End TableInvariants.

Lemma X9_witness :
  promises
    (step (B := TestCodec.base64) (C := TestCodec.ilpPacket)
       (Ev_outgoing_reject Sample.outgoing1 (Opaque "insufficient funds"))
       (run (B := TestCodec.base64) (C := TestCodec.ilpPacket)
          [Op_sendTransfer Sample.id1 Sample.request_with_method;
           Op_sendTransfer Sample.id2 Sample.request_with_method]
          (newPlugin Sample.old_usd))) !! 1%nat
  = Some Pending.
Proof.
  refine (proj2 (X9_completion_events_are_isolated
                   (B := TestCodec.base64) (C := TestCodec.ilpPacket)
                   Sample.old_usd
                   [Op_sendTransfer Sample.id1 Sample.request_with_method;
                    Op_sendTransfer Sample.id2 Sample.request_with_method]
                   Sample.id1
                   (Ev_outgoing_reject Sample.outgoing1 (Opaque "insufficient funds"))
                   _)
            Sample.id2 {| resolve := 1; reject := 1 |} _ _).
  - reflexivity.
  - discriminate.
  - vm_compute. reflexivity.
Defined.

(** ** The incoming pipeline *)

Section IncomingFacts.
Context `{B : Base64} `{C : IlpPacket}.

Lemma handleIncomingPrepare_resolved (lpi1Transfer : OldTransferRecord)
    (view : Transfer) (handler : TransferHandler) (r : FulfillmentResult)
    (st : Plugin) :
  incoming_view lpi1Transfer = Normal view ->
  _transferHandler st = SlotFunction handler ->
  handler view = HandlerResolves r ->
  _handleIncomingPrepare lpi1Transfer st =
    (Normal tt,
     let fulfilled :=
       call_oldPlugin
         (Call_fulfillCondition (lpi1_id lpi1Transfer) (fulfillment r)
            (fulfillment_envelope r)) st in
     match fulfillCondition_throws (oldPlugin st) (lpi1_id lpi1Transfer)
             (fulfillment r) (fulfillment_envelope r) with
     | Some e =>
         match catch_report e with
         | Normal _ =>
             call_oldPlugin (Call_rejectIncomingTransfer lpi1Transfer []) fulfilled
         | Throw _ => fulfilled
         end
     | None => fulfilled
     end).
Proof.
  intros Hview Hslot Hr.
  unfold _handleIncomingPrepare, process_incoming, fulfillment_envelope.
  rewrite Hview, Hslot, Hr. cbv zeta.
  destruct (fulfillCondition_throws _ _ _ _) as [e|]; [|reflexivity].
  destruct (catch_report e); reflexivity.
Qed.

(** X12.  When [fulfillCondition] throws synchronously a value that the [catch]
    callback can report, the incoming transfer is first submitted as
    fulfilled and then as rejected: the [catch] clause also covers the call
    that submits the fulfillment. *)
Theorem X12_throwing_fulfillCondition_is_followed_by_rejection
    (lpi1Transfer : OldTransferRecord) (view : Transfer)
    (handler : TransferHandler) (r : FulfillmentResult) (e : JsError) (st : Plugin) :
  incoming_view lpi1Transfer = Normal view ->
  _transferHandler st = SlotFunction handler ->
  handler view = HandlerResolves r ->
  fulfillCondition_throws (oldPlugin st) (lpi1_id lpi1Transfer)
    (fulfillment r) (fulfillment_envelope r) = Some e ->
  catch_report e = Normal tt ->
  fst (_handleIncomingPrepare lpi1Transfer st) = Normal tt
  /\ calls (oldPlugin (snd (_handleIncomingPrepare lpi1Transfer st)))
     = calls (oldPlugin st)
       ++ [Call_fulfillCondition (lpi1_id lpi1Transfer) (fulfillment r)
             (fulfillment_envelope r);
           Call_rejectIncomingTransfer lpi1Transfer []].
Proof.
  intros Hview Hslot Hr Hthrows Hreport.
  rewrite (handleIncomingPrepare_resolved lpi1Transfer view handler r st Hview Hslot Hr).
  cbv zeta. rewrite Hthrows, Hreport. cbn. split; [reflexivity|].
  now rewrite <- app_assoc.
Qed.

(** X13.  What an incoming-prepare event can do.  The handler throws exactly when
    the envelope does not decode, and then nothing has happened.  Otherwise
    it returns normally and the wrapped plugin has received nothing, or one
    rejection of this transfer with an empty reason, or one fulfillment of
    this transfer, or a fulfillment followed by that rejection.  Without a
    registered handler it is the rejection; with a handler whose promise
    never settles, or which fails with a value that the [catch] callback
    cannot report, it is nothing.  In no case are the correlation table, the
    promises or the handler slot changed. *)
Theorem X13_incoming_prepare_outcomes
    (lpi1Transfer : OldTransferRecord) (st : Plugin) :
  (forall e, fst (_handleIncomingPrepare lpi1Transfer st) = Throw e
             <-> incoming_view lpi1Transfer = Throw e)
  /\ (forall e, incoming_view lpi1Transfer = Throw e ->
                snd (_handleIncomingPrepare lpi1Transfer st) = st)
  /\ (forall view, incoming_view lpi1Transfer = Normal view ->
        fst (_handleIncomingPrepare lpi1Transfer st) = Normal tt
        /\ exists added,
             calls (oldPlugin (snd (_handleIncomingPrepare lpi1Transfer st)))
             = calls (oldPlugin st) ++ added
             /\ (added = []
                 \/ added = [Call_rejectIncomingTransfer lpi1Transfer []]
                 \/ exists f ilp,
                      added = [Call_fulfillCondition (lpi1_id lpi1Transfer) f ilp]
                      \/ added = [Call_fulfillCondition (lpi1_id lpi1Transfer) f ilp;
                                  Call_rejectIncomingTransfer lpi1Transfer []]))
  /\ (forall view, incoming_view lpi1Transfer = Normal view ->
        registered st = false ->
        snd (_handleIncomingPrepare lpi1Transfer st)
        = call_oldPlugin (Call_rejectIncomingTransfer lpi1Transfer []) st)
  /\ (forall view handler, incoming_view lpi1Transfer = Normal view ->
        _transferHandler st = SlotFunction handler ->
        handler view = HandlerNeverSettles
        \/ (exists e, (handler view = HandlerThrows e
                       \/ handler view = HandlerRejects e
                       \/ handler view = HandlerResolvesMalformed e)
                      /\ catch_report e <> Normal tt) ->
        snd (_handleIncomingPrepare lpi1Transfer st) = st)
  /\ transfers (snd (_handleIncomingPrepare lpi1Transfer st)) = transfers st
  /\ promises (snd (_handleIncomingPrepare lpi1Transfer st)) = promises st
  /\ _transferHandler (snd (_handleIncomingPrepare lpi1Transfer st))
     = _transferHandler st.
Proof.
  assert (Hnormal : forall view, incoming_view lpi1Transfer = Normal view ->
            fst (_handleIncomingPrepare lpi1Transfer st) = Normal tt
            /\ _transferHandler (snd (_handleIncomingPrepare lpi1Transfer st))
               = _transferHandler st
            /\ exists added,
                 calls (oldPlugin (snd (_handleIncomingPrepare lpi1Transfer st)))
                 = calls (oldPlugin st) ++ added
                 /\ (added = []
                     \/ added = [Call_rejectIncomingTransfer lpi1Transfer []]
                     \/ exists f ilp,
                          added = [Call_fulfillCondition (lpi1_id lpi1Transfer) f ilp]
                          \/ added = [Call_fulfillCondition (lpi1_id lpi1Transfer) f ilp;
                                      Call_rejectIncomingTransfer lpi1Transfer []])).
  { assert (Hreject : forall err,
              let res := match catch_report err with
                         | Normal _ =>
                             (Normal tt,
                              call_oldPlugin (Call_rejectIncomingTransfer lpi1Transfer []) st)
                         | Throw _ => (Normal tt, st)
                         end in
              fst res = Normal tt
              /\ _transferHandler (snd res) = _transferHandler st
              /\ exists added,
                   calls (oldPlugin (snd res)) = calls (oldPlugin st) ++ added
                   /\ (added = []
                       \/ added = [Call_rejectIncomingTransfer lpi1Transfer []]
                       \/ exists f ilp,
                            added = [Call_fulfillCondition (lpi1_id lpi1Transfer) f ilp]
                            \/ added = [Call_fulfillCondition (lpi1_id lpi1Transfer) f ilp;
                                        Call_rejectIncomingTransfer lpi1Transfer []])).
    { intros err. cbv zeta. destruct (catch_report err); cbn.
      - repeat split. eexists. split; [reflexivity|]. right. now left.
      - repeat split. exists []. split; [now rewrite app_nil_r | now left]. }
    intros view Hview. unfold _handleIncomingPrepare, process_incoming. rewrite Hview.
    destruct (_transferHandler st) as [| |handler] eqn:Hslot.
    - apply Hreject.
    - apply Hreject.
    - destruct (handler view) as [e|e|r|e|]; try apply Hreject.
      + destruct (fulfillCondition_throws _ _ _ _) as [e|].
        * destruct (catch_report e); cbn; (split; [reflexivity|]);
            (split; [exact Hslot|]).
          -- eexists. split; [now rewrite <- app_assoc|]. right. right. eauto.
          -- eexists. split; [reflexivity|]. right. right. eauto.
        * cbn. split; [reflexivity|]. split; [exact Hslot|].
          eexists. split; [reflexivity|]. right. right. eauto.
      + cbn. split; [reflexivity|]. split; [exact Hslot|].
        exists []. split; [now rewrite app_nil_r | now left]. }
  split; [|split; [|split; [|split; [|split; [|split; [|split]]]]]].
  - intros e. split.
    + intros Hthrow. destruct (incoming_view lpi1Transfer) as [view|e'] eqn:Hview.
      * destruct (Hnormal view eq_refl) as [Hfst _]. congruence.
      * unfold _handleIncomingPrepare in Hthrow. rewrite Hview in Hthrow.
        cbn in Hthrow. congruence.
    + intros Hview. unfold _handleIncomingPrepare. now rewrite Hview.
  - intros e Hview. unfold _handleIncomingPrepare. now rewrite Hview.
  - intros view Hview. destruct (Hnormal view Hview) as (Hfst & _ & Hcalls). auto.
  - intros view Hview Hnone.
    unfold _handleIncomingPrepare, process_incoming. rewrite Hview.
    unfold registered in Hnone.
    destruct (_transferHandler st); try discriminate Hnone; reflexivity.
  - intros view handler Hview Hslot Hcase.
    unfold _handleIncomingPrepare, process_incoming. rewrite Hview, Hslot.
    destruct Hcase as [-> | (e & Hfail & Hreport)]; [reflexivity|].
    destruct Hfail as [-> | [-> | ->]];
      destruct (catch_report e) as [[]|]; try reflexivity; now contradiction Hreport.
  - apply handleIncomingPrepare_frame.
  - apply handleIncomingPrepare_frame.
  - destruct (incoming_view lpi1Transfer) as [view|e] eqn:Hview.
    + now destruct (Hnormal view eq_refl) as (_ & Hslot & _).
    + unfold _handleIncomingPrepare. now rewrite Hview.
Qed.

End IncomingFacts.

Section FulfillmentRoundTrip.
Context `{B : Base64} `{C : IlpPacket} {L : CodecLaws B C}.

(** X11.  The decision of the transfer handler reaches the sender unchanged.  When
    the handler resolves with [{ fulfillment, data }] and [fulfillCondition]
    returns, the receiving adapter submits exactly one call,
    [fulfillCondition], with that fulfillment and an envelope; and a sending
    adapter that receives this fulfillment and envelope in a fulfillment
    event resolves the pending promise of the matching entry with exactly the
    handler's [{ fulfillment, data }]. *)
Theorem X11_handler_decision_reaches_the_sender
    (lpi1Transfer : OldTransferRecord) (view : Transfer)
    (handler : TransferHandler) (r : FulfillmentResult) (receiver : Plugin) :
  incoming_view lpi1Transfer = Normal view ->
  _transferHandler receiver = SlotFunction handler ->
  handler view = HandlerResolves r ->
  fulfillCondition_throws (oldPlugin receiver) (lpi1_id lpi1Transfer)
    (fulfillment r) (fulfillment_envelope r) = None ->
  calls (oldPlugin (snd (_handleIncomingPrepare lpi1Transfer receiver)))
  = calls (oldPlugin receiver)
    ++ [Call_fulfillCondition (lpi1_id lpi1Transfer) (fulfillment r)
          (fulfillment_envelope r)]
  /\ (forall (sender : Plugin) (transfer : OldTransferRecord) (entry : PendingTransfer),
        transfers sender !! lpi1_id transfer = Some entry ->
        promises sender !! resolve entry = Some Pending ->
        promises
          (snd (_handleOutgoingFulfill transfer (fulfillment r)
                  (IlpBuffer (fulfillment_envelope r)) sender)) !! resolve entry
        = Some (Fulfilled r)).
Proof.
  intros Hview Hslot Hr Hquiet. split.
  - rewrite (handleIncomingPrepare_resolved lpi1Transfer view handler r receiver
               Hview Hslot Hr).
    cbv zeta. now rewrite Hquiet.
  - intros sender transfer entry Hentry Hpending.
    unfold _handleOutgoingFulfill, fulfillment_envelope. rewrite Hentry.
    destruct (fulfillment_roundtrip
                {| ilp_fulfillment_data := toString_base64 (fulfillment_data r) |})
      as (g & -> & Hdata).
    cbn [snd]. unfold call_resolve.
    cbn [ilp_fulfillment_data] in Hdata. rewrite Hdata, base64_roundtrip.
    replace {| fulfillment := fulfillment r; fulfillment_data := fulfillment_data r |}
      with r by now destruct r.
    now apply settle_pending.
Qed.

End FulfillmentRoundTrip.

Lemma X11_witness :
  calls (oldPlugin
           (snd (_handleIncomingPrepare (B := TestCodec.base64) (C := TestCodec.ilpPacket)
                   Sample.incoming_alice Sample.st_registered)))
  = [Call_fulfillCondition Sample.id2 "fulfillment-1"
       (fulfillment_envelope (B := TestCodec.base64) (C := TestCodec.ilpPacket)
          (mkFulfillmentResult "fulfillment-1" [x68; x69]))].
Proof.
  refine (proj1 (X11_handler_decision_reaches_the_sender (L := TestCodecFacts.laws)
                   Sample.incoming_alice
                   (mkTransfer "10" "g.usd.connector1.alice" [x68; x69]
                      "condition-1" "2017-12-24T00:00:00.000Z" "" None)
                   Sample.handler_accept
                   (mkFulfillmentResult "fulfillment-1" [x68; x69])
                   Sample.st_registered _ _ _ _)); reflexivity.
Defined.

Lemma X12_witness :
  calls (oldPlugin
           (snd (_handleIncomingPrepare (B := TestCodec.base64) (C := TestCodec.ilpPacket)
                   Sample.incoming_alice SampleExtra.st_registered_throwing)))
  = [Call_fulfillCondition Sample.id2 "fulfillment-1"
       (fulfillment_envelope (B := TestCodec.base64) (C := TestCodec.ilpPacket)
          (mkFulfillmentResult "fulfillment-1" [x68; x69]));
     Call_rejectIncomingTransfer Sample.incoming_alice []].
Proof.
  refine (proj2 (X12_throwing_fulfillCondition_is_followed_by_rejection
                   (B := TestCodec.base64) (C := TestCodec.ilpPacket)
                   Sample.incoming_alice
                   (mkTransfer "10" "g.usd.connector1.alice" [x68; x69]
                      "condition-1" "2017-12-24T00:00:00.000Z" "" None)
                   Sample.handler_accept
                   (mkFulfillmentResult "fulfillment-1" [x68; x69])
                   (Error "not connected")
                   SampleExtra.st_registered_throwing _ _ _ _ _)); reflexivity.
Defined.

(** ** The export of the module *)

Lemma typeof_kind_not_object (k : JsKind) : typeof_kind k <> "object".
Proof. destruct k; discriminate. Qed.

Lemma typeof_property_function (v : JsKind + unit) :
  typeof_property v = "function" <-> v = inl KindFunction.
Proof.
  split; [|now intros ->].
  destruct v as [[]|[]]; cbn; intros H; try discriminate H; reflexivity.
Qed.

(** X14.  What the export function returns.  Whenever it returns, the result is an
    object with a [sendTransfer] function whose constructor carries
    [lpiVersion = 2]: either the argument itself, or a new adapter, with an
    empty correlation table and no transfer handler, around the plugin that
    was passed.  Applied to its own result it returns that result
    unchanged. *)
Theorem X14_export_is_idempotent (value result : JsValue) :
  module_exports value = Normal result ->
  module_exports result = Normal result
  /\ typeof_sendTransfer result = Normal "function"
  /\ constructor_lpiVersion result = Normal (Some 2%Z)
  /\ ((result = value /\ constructor_lpiVersion value = Normal (Some 2%Z))
      \/ exists o,
           value = ValueObject o
           /\ result = ValueAdapter (newPlugin (object_plugin o))
           /\ transfers (newPlugin (object_plugin o)) = ∅
           /\ _transferHandler (newPlugin (object_plugin o)) = SlotUndefined).
Proof.
  destruct value as [k| |o|p]; cbn.
  - destruct k; discriminate.
  - discriminate.
  - unfold module_exports. cbn.
    destruct (object_sendTransfer o) as [[]|[]] eqn:Hsend; cbn; try discriminate.
    destruct (object_constructor o) as [|[version|]] eqn:Hctor; cbn; try discriminate.
    + destruct (Z.eqb version 2) eqn:Hversion.
      * apply Z.eqb_eq in Hversion. subst version.
        intros [= <-]. unfold module_exports. cbn. rewrite Hsend, Hctor. cbn.
        repeat split. now left.
      * intros [= <-]. repeat split. right. exists o. auto.
    + intros [= <-]. repeat split. right. exists o. auto.
  - intros [= <-]. repeat split. now left.
Qed.

Lemma X14_witness :
  module_exports (ValueAdapter (newPlugin Sample.old_usd))
  = Normal (ValueAdapter (newPlugin Sample.old_usd)).
Proof.
  apply (X14_export_is_idempotent (ValueObject SampleExtra.object_usd)
           (ValueAdapter (newPlugin Sample.old_usd))).
  reflexivity.
Defined.

(** X15.  What the export function refuses.  A value that is not an object is
    refused with "not a plugin: not an object"; an object whose
    [sendTransfer] is not a function with "not a plugin: no sendTransfer
    method".  [null] passes the first check, being of type "object", and
    fails with another [TypeError] on the property access that follows.
    Every failure is a [TypeError], and an adapter is never refused. *)
Theorem X15_export_refusals :
  (forall k : JsKind,
      module_exports (ValuePrimitive k) = Throw (TypeError "not a plugin: not an object"))
  /\ (forall o : PluginObject,
        object_sendTransfer o <> inl KindFunction ->
        module_exports (ValueObject o)
        = Throw (TypeError "not a plugin: no sendTransfer method"))
  /\ (exists message,
        module_exports ValueNull = Throw (TypeError message)
        /\ message <> "not a plugin: not an object")
  /\ (forall (value : JsValue) (e : JsError),
        module_exports value = Throw e -> exists message, e = TypeError message)
  /\ (forall p : Plugin, module_exports (ValueAdapter p) = Normal (ValueAdapter p)).
Proof.
  split; [|split; [|split; [|split]]].
  - intros k. destruct k; reflexivity.
  - intros o Hsend. unfold module_exports. cbn.
    destruct (object_sendTransfer o) as [[]|[]]; try reflexivity. congruence.
  - eexists. split; [reflexivity | discriminate].
  - intros value e. destruct value as [k| |o|p].
    + destruct k; intros [= <-]; eauto.
    + intros [= <-]. eauto.
    + unfold module_exports. cbn.
      destruct (object_sendTransfer o) as [[]|[]]; cbn; try (intros [= <-]; eauto).
      destruct (object_constructor o) as [|[version|]]; cbn;
        try (intros [= <-]; eauto); try discriminate.
      destruct (Z.eqb version 2); discriminate.
    + discriminate.
  - reflexivity.
Qed.

Lemma X15_witness :
  module_exports (ValueObject SampleExtra.object_without_method)
  = Throw (TypeError "not a plugin: no sendTransfer method").
Proof.
  apply (proj1 (proj2 X15_export_refusals) SampleExtra.object_without_method).
  discriminate.
Defined.

(** ** The replaced [emit] *)

Lemma indexOf_from_spec (l : list string) (x : string) (i : Z) :
  (0 <= i)%Z ->
  (indexOf_from l x i = (-1)%Z <-> x ∉ l).
Proof.
  revert i. induction l as [|y l IH]; intros i Hi; cbn [indexOf_from].
  - split; [intros _; apply not_elem_of_nil | reflexivity].
  - unfold JsString.strict_eq. destruct (String.eqb y x) eqn:Hyx.
    + apply String.eqb_eq in Hyx. subst y. split.
      * intros ->. lia.
      * intros Hnot. exfalso. apply Hnot. apply list_elem_of_here.
    + apply String.eqb_neq in Hyx. rewrite IH by lia.
      rewrite not_elem_of_cons. split; [auto | now intros [_ H]].
Qed.

Lemma is_passthrough_spec (eventType : string) :
  negb (Z.eqb (indexOf PASSTHROUGH_EVENTS eventType) (-1)) = true
  <-> eventType ∈ PASSTHROUGH_EVENTS.
Proof.
  rewrite negb_true_iff, Z.eqb_neq. unfold indexOf.
  rewrite (indexOf_from_spec PASSTHROUGH_EVENTS eventType 0) by lia.
  split.
  - intros Hnn. destruct (decide (eventType ∈ PASSTHROUGH_EVENTS)); [assumption|].
    contradiction.
  - intros Hin Hnot. contradiction.
Qed.

Section Emit.
Context {A W R : Type} (originalEmit : string -> A -> W -> Completion R * W).

(** X16.  For every event that is not one of [connect], [disconnect], [error]
    and [info_change], the replaced [emit] does to the emitter what the
    original [emit] does and throws what it throws; when the original
    returns, the replaced [emit] returns [undefined], so the original's
    result is lost to the caller.  The four events the adapter subscribes to
    are among these. *)
Theorem X16_emit_is_transparent_for_other_events :
  (forall (eventType : string) (args : A) (w : W),
      eventType ∉ PASSTHROUGH_EVENTS ->
      snd (emit originalEmit eventType args w) = snd (originalEmit eventType args w)
      /\ (forall e, fst (originalEmit eventType args w) = Throw e ->
                    fst (emit originalEmit eventType args w) = Throw e)
      /\ (forall r, fst (originalEmit eventType args w) = Normal r ->
                    fst (emit originalEmit eventType args w) = Normal tt))
  /\ (forall eventType : string,
        eventType ∈ SUBSCRIBED_EVENTS -> eventType ∉ PASSTHROUGH_EVENTS).
Proof.
  split.
  - intros eventType args w Hnot. unfold emit.
    destruct (originalEmit eventType args w) as [[r|e] w']; cbn [fst snd].
    + destruct (negb _) eqn:Hpass.
      * apply is_passthrough_spec in Hpass. contradiction.
      * repeat split. intros e He. discriminate He.
    + repeat split; [now intros e' [= ->] | intros r Hr; discriminate Hr].
  - intros eventType Hin Hpass.
    unfold SUBSCRIBED_EVENTS in Hin. unfold PASSTHROUGH_EVENTS in Hpass.
    repeat (apply elem_of_cons in Hin as [-> | Hin];
            [repeat (apply elem_of_cons in Hpass as [Hpass | Hpass];
                     [discriminate Hpass|]);
             now apply elem_of_nil in Hpass|]).
    now apply elem_of_nil in Hin.
Qed.

(** X17.  For [connect], [disconnect], [error] and [info_change] the replaced
    [emit] first runs the original [emit] and then never returns normally:
    it throws what the original threw, or else the [TypeError] of calling
    [this.emit], which the class [Plugin] does not have.  The state is the one
    the original [emit] left. *)
Theorem X17_emit_of_a_passthrough_event_throws
    (eventType : string) (args : A) (w : W) :
  eventType ∈ PASSTHROUGH_EVENTS ->
  snd (emit originalEmit eventType args w) = snd (originalEmit eventType args w)
  /\ (forall e, fst (originalEmit eventType args w) = Throw e ->
                fst (emit originalEmit eventType args w) = Throw e)
  /\ (forall r, fst (originalEmit eventType args w) = Normal r ->
                fst (emit originalEmit eventType args w)
                = Throw (TypeError "this.emit is not a function")).
Proof.
  intros Hpass. apply is_passthrough_spec in Hpass. unfold emit.
  destruct (originalEmit eventType args w) as [[r|e] w']; cbn [fst snd].
  - rewrite Hpass. cbn. repeat split. intros e He. discriminate He.
  - repeat split; [now intros e' [= ->] | intros r Hr; discriminate Hr].
Qed.

End Emit.

Lemma X16_witness :
  emit SampleExtra.recording_emit "outgoing_fulfill" tt ["connect"]
  = (Normal tt, ["connect"; "outgoing_fulfill"])
  /\ fst (SampleExtra.recording_emit "outgoing_fulfill" tt ["connect"]) = Normal true.
Proof.
  assert (Hnot : "outgoing_fulfill" ∉ PASSTHROUGH_EVENTS).
  { unfold PASSTHROUGH_EVENTS. intros Hin.
    repeat (apply elem_of_cons in Hin as [Hin | Hin]; [discriminate Hin|]).
    now apply elem_of_nil in Hin. }
  destruct (proj1 (X16_emit_is_transparent_for_other_events SampleExtra.recording_emit)
              "outgoing_fulfill" tt ["connect"] Hnot) as (Hsnd & _ & Hfst).
  specialize (Hfst true eq_refl).
  destruct (emit SampleExtra.recording_emit "outgoing_fulfill" tt ["connect"]) as [c w].
  cbn in Hsnd, Hfst. subst. split; reflexivity.
Defined.

Lemma X17_witness :
  emit SampleExtra.recording_emit "connect" tt []
  = (Throw (TypeError "this.emit is not a function"), ["connect"]).
Proof.
  assert (Hpass : "connect" ∈ PASSTHROUGH_EVENTS) by apply list_elem_of_here.
  destruct (X17_emit_of_a_passthrough_event_throws
              SampleExtra.recording_emit "connect" tt [] Hpass) as (Hsnd & _ & Hfst).
  specialize (Hfst true eq_refl).
  destruct (emit SampleExtra.recording_emit "connect" tt []) as [c w].
  cbn in Hsnd, Hfst. now subst.
Defined.

(** ** Correlation of a request with its events *)

Section Correlation.
Context `{B : Base64} `{C : IlpPacket}.

(** X18.  The identifier correlates events with the promise that [sendTransfer]
    returned.  After an accepted [sendTransfer] under [id], whatever entry
    the table held under [id] before, a rejection or cancellation event for
    [id] calls [reject] of the returned promise with the event's reason, and
    a fulfillment event for [id] whose envelope deserializes calls its
    [resolve] with the event's fulfillment and the decoded payload. *)
Theorem X18_events_reach_the_returned_promise
    (id : string) (transfer : Transfer) (st : Plugin) (event : OldTransferRecord) :
  falsy (localDeliveryAddress (getInfo st) (destination transfer)) = false ->
  lpi1_id event = id ->
  let p := length (promises st) in
  let st' := snd (sendTransfer id transfer st) in
  fst (sendTransfer id transfer st) = SendPromise p
  /\ (forall reason,
        trace (snd (_handleOutgoingReject event reason st'))
        = trace st' ++ [CalledReject p reason])
  /\ (forall reason,
        trace (snd (_handleOutgoingCancel event reason st'))
        = trace st' ++ [CalledReject p reason])
  /\ (forall fulfillment_ ilp packet,
        deserializeIlpFulfillment ilp = Normal packet ->
        trace (snd (_handleOutgoingFulfill event fulfillment_ ilp st'))
        = trace st'
          ++ [CalledResolve p
                {| fulfillment := fulfillment_;
                   fulfillment_data := from_base64 (ilp_fulfillment_data packet) |}]).
Proof.
  intros Hto Hid p st'.
  assert (Hentry : transfers st' !! lpi1_id event = Some {| resolve := p; reject := p |}).
  { unfold st'. rewrite sendTransfer_transfers, Hto, Hid. apply lookup_insert_eq. }
  split; [unfold sendTransfer; now rewrite Hto|].
  split; [|split].
  - intros reason. unfold _handleOutgoingReject. rewrite Hentry.
    apply call_reject_frame.
  - intros reason. unfold _handleOutgoingCancel. rewrite Hentry.
    apply call_reject_frame.
  - intros f ilp packet Hilp. unfold _handleOutgoingFulfill. rewrite Hentry, Hilp.
    apply call_resolve_frame.
Qed.

End Correlation.

Lemma X18_witness :
  trace
    (snd (_handleOutgoingReject Sample.outgoing1 (Opaque "insufficient funds")
            (snd (sendTransfer (B := TestCodec.base64) (C := TestCodec.ilpPacket)
                    Sample.id1 Sample.request_alice Sample.st_pending))))
  = trace
      (snd (sendTransfer (B := TestCodec.base64) (C := TestCodec.ilpPacket)
              Sample.id1 Sample.request_alice Sample.st_pending))
    ++ [CalledReject 1 (Opaque "insufficient funds")].
Proof.
  refine (proj1 (proj2 (X18_events_reach_the_returned_promise
                          (B := TestCodec.base64) (C := TestCodec.ilpPacket)
                          Sample.id1 Sample.request_alice Sample.st_pending
                          Sample.outgoing1 _ _))
            (Opaque "insufficient funds")); reflexivity.
Defined.

(** ** Further instances *)

Lemma X1_witness : startsWith "g.usd.connector1" "g.usd." = false.
Proof.
  apply (proj2 (proj2 X1_startsWith_tests_prefix) "g.usd.connector1" "g.usd.").
  cbn. lia.
Defined.

Lemma X2_witness :
  fst (sendTransfer (B := TestCodec.base64) (C := TestCodec.ilpPacket)
         Sample.id1 Sample.request_alice (newPlugin Sample.old_isolated))
  = SendPromise 0.
Proof.
  apply (proj2 (proj2 (X2_no_valid_destination_exactly
                         (B := TestCodec.base64) (C := TestCodec.ilpPacket)
                         Sample.id1 Sample.request_alice
                         (newPlugin Sample.old_isolated)))).
  - discriminate.
  - reflexivity.
Defined.

Lemma X6_witness :
  promises (snd (sendTransfer (B := TestCodec.base64) (C := TestCodec.ilpPacket)
                   Sample.id2 Sample.request_alice Sample.st_pending)) !! 0%nat
  = Some Pending.
Proof.
  apply (proj1 (X6_sendTransfer_only_adds_a_promise
                  (B := TestCodec.base64) (C := TestCodec.ilpPacket)
                  Sample.id2 Sample.request_alice Sample.st_pending)).
  reflexivity.
Defined.

Lemma X10_witness :
  oldPlugin (step (B := TestCodec.base64) (C := TestCodec.ilpPacket)
               (Ev_outgoing_fulfill Sample.outgoing1 "fulfillment-1" Sample.envelope_ok)
               Sample.st_pending)
  = oldPlugin Sample.st_pending.
Proof.
  apply (proj1 (X10_footprint_of_operations
                  (B := TestCodec.base64) (C := TestCodec.ilpPacket))).
  reflexivity.
Defined.

Lemma X13_witness :
  snd (_handleIncomingPrepare (B := TestCodec.base64) (C := TestCodec.ilpPacket)
         Sample.incoming_alice SampleExtra.st_registered_null)
  = SampleExtra.st_registered_null.
Proof.
  refine (proj1 (proj2 (proj2 (proj2 (proj2
            (X13_incoming_prepare_outcomes
               (B := TestCodec.base64) (C := TestCodec.ilpPacket)
               Sample.incoming_alice SampleExtra.st_registered_null)))))
            (mkTransfer "10" "g.usd.connector1.alice" [x68; x69]
               "condition-1" "2017-12-24T00:00:00.000Z" "" None)
            SampleExtra.handler_throwing_null _ _ _).
  - reflexivity.
  - reflexivity.
  - right. exists NullValue. split; [now left | discriminate].
Defined.
